(** * Verification of [src/shared/validate.js]

    A shallow embedding of the pre-deploy validator of the Scaleway
    plugin for the Serverless framework: the cron regular expression
    and the schedule validator, [validateTriggers], [validateEnv],
    [validateCredentials], [validateApplications], [checkErrors] and
    the [validate] pipeline, followed by the properties the
    specification states about them. *)

From Stdlib Require Import List String Ascii Bool Arith ZArith Lia.
From Stdlib Require Import DecimalString DecimalNat.
Import ListNotations.

Local Open Scope list_scope.
Local Open Scope string_scope.

Set Implicit Arguments.
Set Warnings "-register-all".

(* ================================================================= *)
(** * Strings *)

(** JavaScript strings are modelled by [string]; one character stands
    for one UTF-16 code unit, so [String.length] is the [length]
    property. *)

(** [Array.prototype.join] on an array of strings. *)
Definition join (sep : string) (l : list string) : string :=
  String.concat sep l.

(** Decimal numeral of a natural number, as [Number.prototype.toString]
    prints a non-negative integer: no sign, no leading zero. *)
Definition decimal (n : nat) : string :=
  NilZero.string_of_uint (Nat.to_uint n).

(** [s] between double quotes. *)
Definition quoted (s : string) : string :=
  String (ascii_of_nat 34) s ++ String (ascii_of_nat 34) EmptyString.

(** [contains msg s]: [s] occurs in [msg]. *)
Definition contains (msg s : string) : Prop :=
  exists pre post, msg = pre ++ s ++ post.

(** [String.prototype.split] with a one-character separator. *)
Fixpoint split (sep : ascii) (s : string) : list string :=
  match s with
  | EmptyString => [EmptyString]
  | String c t =>
      if Ascii.eqb c sep then EmptyString :: split sep t
      else match split sep t with
           | [] => [String c EmptyString]
           | w :: ws => String c w :: ws
           end
  end.

(** How many times [c] occurs in [s]. *)
Fixpoint occurrences (c : ascii) (s : string) : nat :=
  match s with
  | EmptyString => 0
  | String d t => if Ascii.eqb d c then S (occurrences c t) else occurrences c t
  end.

(** Every character of [s] passes [ok]. *)
Fixpoint allChars (ok : ascii -> bool) (s : string) : bool :=
  match s with
  | EmptyString => true
  | String d t => ok d && allChars ok t
  end.

(* ================================================================= *)
(** * Regular expressions *)

(** The fragment of the regular-expression syntax that
    [cronScheduleRegex] is written in: literal characters (escaped or
    not), character ranges [[a-b]], alternation and juxtaposition.
    Groups only bracket. *)
Inductive regex : Type :=
| Chr (c : ascii)
| Range (lo hi : ascii)
| Alt (r1 r2 : regex)
| Cat (r1 r2 : regex).

Definition inRange (lo hi d : ascii) : bool :=
  Nat.leb (nat_of_ascii lo) (nat_of_ascii d) && Nat.leb (nat_of_ascii d) (nat_of_ascii hi).

(** Backtracking matcher: every way [r] can consume a prefix of [s],
    given by the suffix left over, in the order a backtracking engine
    tries them. *)
Fixpoint run (r : regex) (s : string) : list string :=
  match r with
  | Chr c =>
      match s with
      | String d t => if Ascii.eqb c d then [t] else []
      | EmptyString => []
      end
  | Range lo hi =>
      match s with
      | String d t => if inRange lo hi d then [t] else []
      | EmptyString => []
      end
  | Alt r1 r2 => (run r1 s ++ run r2 s)%list
  | Cat r1 r2 => flat_map (run r2) (run r1 s)
  end.

Definition isEmpty (s : string) : bool :=
  match s with EmptyString => true | _ => false end.

(** [/^r$/.test(s)] for a regular expression without flags: some way
    of matching consumes the whole input. *)
Definition test (r : regex) (s : string) : bool :=
  existsb isEmpty (run r s).

(** The strings a regular expression denotes. *)
Fixpoint lang (r : regex) (s : string) : Prop :=
  match r with
  | Chr c => s = String c EmptyString
  | Range lo hi => exists d, s = String d EmptyString /\ inRange lo hi d = true
  | Alt r1 r2 => lang r1 s \/ lang r2 s
  | Cat r1 r2 => exists u v, s = u ++ v /\ lang r1 u /\ lang r2 v
  end.

(** The same strings, listed: the syntax has no repetition, so they
    are finitely many. *)
Fixpoint words (r : regex) : list string :=
  match r with
  | Chr c => [String c EmptyString]
  | Range lo hi =>
      map (fun n => String (ascii_of_nat n) EmptyString)
        (seq (nat_of_ascii lo) (nat_of_ascii hi + 1 - nat_of_ascii lo))
  | Alt r1 r2 => (words r1 ++ words r2)%list
  | Cat r1 r2 => flat_map (fun u => map (append u) (words r2)) (words r1)
  end.

(** Alternation of several branches, [r | r1 | ... | rn]. *)
Fixpoint alts (r : regex) (rs : list regex) : regex :=
  match rs with
  | [] => r
  | r' :: rs' => Alt r (alts r' rs')
  end.

(** Juxtaposition of several pieces. *)
Fixpoint cats (r : regex) (rs : list regex) : regex :=
  match rs with
  | [] => r
  | r' :: rs' => Cat r (cats r' rs')
  end.

Module Cron.

Definition star : regex := Chr "*".          (* \* *)
Definition slash : regex := Chr "/".         (* \/ *)
Definition space : regex := Chr " ".
Definition tens (c : ascii) (lo hi : ascii) : regex := Cat (Chr c) (Range lo hi).

(** [([0-9]|1[0-9]|2[0-9]|3[0-9]|4[0-9]|5[0-9])] *)
Definition minuteNum : regex :=
  alts (Range "0" "9")
    [tens "1" "0" "9"; tens "2" "0" "9"; tens "3" "0" "9";
     tens "4" "0" "9"; tens "5" "0" "9"].

(** [([0-9]|1[0-9]|2[0-3])] *)
Definition hourNum : regex :=
  alts (Range "0" "9") [tens "1" "0" "9"; tens "2" "0" "3"].

(** [([1-9]|1[0-9]|2[0-9]|3[0-1])] *)
Definition dayOfMonthNum : regex :=
  alts (Range "1" "9") [tens "1" "0" "9"; tens "2" "0" "9"; tens "3" "0" "1"].

(** [([1-9]|1[0-2])] *)
Definition monthNum : regex :=
  alts (Range "1" "9") [tens "1" "0" "2"].

(** [([0-6])] *)
Definition dayOfWeekNum : regex := Range "0" "6".

(** [(\*|(num)|\*\/(num))] *)
Definition field (num : regex) : regex :=
  alts star [num; cats star [slash; num]].

(** The body of [cronScheduleRegex], between [^] and [$]. *)
Definition cronScheduleRegex : regex :=
  cats (field minuteNum)
    [space; field hourNum;
     space; field dayOfMonthNum;
     space; field monthNum;
     space; field dayOfWeekNum].

End Cron.

(** ** Measures of a regular expression *)

(** The shortest and the longest input an expression can consume. *)
Fixpoint minLength (r : regex) : nat :=
  match r with
  | Chr _ | Range _ _ => 1
  | Alt r1 r2 => Nat.min (minLength r1) (minLength r2)
  | Cat r1 r2 => minLength r1 + minLength r2
  end.

Fixpoint maxLength (r : regex) : nat :=
  match r with
  | Chr _ | Range _ _ => 1
  | Alt r1 r2 => Nat.max (maxLength r1) (maxLength r2)
  | Cat r1 r2 => maxLength r1 + maxLength r2
  end.

(** Every character an expression can consume passes [ok]. *)
Fixpoint leavesWithin (ok : ascii -> bool) (r : regex) : bool :=
  match r with
  | Chr c => ok c
  | Range lo hi =>
      forallb (fun n => ok (ascii_of_nat n))
        (seq (nat_of_ascii lo) (nat_of_ascii hi + 1 - nat_of_ascii lo))
  | Alt r1 r2 | Cat r1 r2 => leavesWithin ok r1 && leavesWithin ok r2
  end.

(** The fewest and the most occurrences of [c] in an input an
    expression can consume. *)
Fixpoint minCount (c : ascii) (r : regex) : nat :=
  match r with
  | Chr d => if Ascii.eqb d c then 1 else 0
  | Range lo hi => 0
  | Alt r1 r2 => Nat.min (minCount c r1) (minCount c r2)
  | Cat r1 r2 => minCount c r1 + minCount c r2
  end.

Fixpoint maxCount (c : ascii) (r : regex) : nat :=
  match r with
  | Chr d => if Ascii.eqb d c then 1 else 0
  | Range lo hi => if inRange lo hi c then 1 else 0
  | Alt r1 r2 => Nat.max (maxCount c r1) (maxCount c r2)
  | Cat r1 r2 => maxCount c r1 + maxCount c r2
  end.

(** A digit, a star, a slash or a space. *)
Definition cronChar (c : ascii) : bool :=
  inRange "0" "9" c || Ascii.eqb c "*" || Ascii.eqb c "/" || Ascii.eqb c " ".

(** ** The cron grammar as the specification words it *)

(** A number of the range [lo..hi], written in decimal. *)
Definition cronNumber (lo hi : nat) (f : string) : Prop :=
  exists n, lo <= n <= hi /\ f = decimal n.

(** A field is [*], a number of its range, or a step [*/n] with [n] a
    number of its range. *)
Definition cronField (lo hi : nat) (f : string) : Prop :=
  f = "*" \/ cronNumber lo hi f \/ exists n, f = "*/" ++ n /\ cronNumber lo hi n.

(** Five fields separated by single spaces: minute, hour, day of
    month, month, day of week. *)
Definition cronGrammar (s : string) : Prop :=
  exists minute hour dayOfMonth month dayOfWeek,
    s = minute ++ " " ++ hour ++ " " ++ dayOfMonth ++ " " ++ month ++ " " ++ dayOfWeek
    /\ cronField 0 59 minute
    /\ cronField 0 23 hour
    /\ cronField 1 31 dayOfMonth
    /\ cronField 1 12 month
    /\ cronField 0 6 dayOfWeek.

(* ================================================================= *)
(** * JavaScript values *)

(** The values a parsed configuration is made of.  Numbers are the
    integers that print in plain decimal (magnitude below 10^21); an
    object is the list of its own enumerable properties in the order
    [Object.keys] reports them, with distinct names.  An absent
    property reads as [VUndefined].  Values stand for their content:
    the validator never compares two objects by identity. *)
Inductive value : Type :=
| VUndefined
| VNull
| VBool (b : bool)
| VNum (n : Z)
| VStr (s : string)
| VArr (elems : list value)
| VObj (props : list (string * value)).

Definition obj : Type := list (string * value).

(** ToBoolean. *)
Definition truthy (v : value) : bool :=
  match v with
  | VUndefined | VNull => false
  | VBool b => b
  | VNum n => negb (Z.eqb n 0)
  | VStr s => negb (isEmpty s)
  | VArr _ | VObj _ => true
  end.

(** The [typeof] operator. *)
Definition typeof (v : value) : string :=
  match v with
  | VUndefined => "undefined"
  | VNull => "object"
  | VBool _ => "boolean"
  | VNum _ => "number"
  | VStr _ => "string"
  | VArr _ | VObj _ => "object"
  end.

(** ToString, as a template literal, a property read and
    [RegExp.prototype.test] apply it: an array joins its elements with
    a comma, [undefined] and [null] elements printing as nothing; a
    plain object prints as [[object Object]].  This is what the
    engine prints for the values that [printable] below accepts; on
    the others the engine throws a [TypeError] or prints another
    numeral, and the statements that read the print of a value take
    the value printable. *)
Fixpoint toString (v : value) : string :=
  match v with
  | VUndefined => "undefined"
  | VNull => "null"
  | VBool true => "true"
  | VBool false => "false"
  | VNum n => NilZero.string_of_int (Z.to_int n)
  | VStr s => s
  | VArr elems =>
      join ","
        ((fix each (l : list value) : list string :=
            match l with
            | [] => []
            | x :: t =>
                match x with
                | VUndefined | VNull => EmptyString
                | _ => toString x
                end :: each t
            end) elems)
  | VObj _ => "[object Object]"
  end.

(** The values whose print [toString] gives.  A mapping with an own
    key [toString] does not print: the key hides
    [Object.prototype.toString], its value is not callable, and
    ToString throws a [TypeError]; so does an array that holds such a
    mapping.  A number prints as its decimal numeral when it is a safe
    integer; a larger one prints as the shortest numeral that reads
    back as the same double, with an exponent from 10^21 on. *)
Fixpoint printable (v : value) : bool :=
  match v with
  | VUndefined | VNull | VBool _ | VStr _ => true
  | VNum n => Z.ltb (Z.abs n) (2 ^ 53)
  | VArr elems =>
      (fix all (l : list value) : bool :=
         match l with
         | [] => true
         | x :: t => printable x && all t
         end) elems
  | VObj props => negb (existsb (String.eqb "toString") (map fst props))
  end.

(** [o[k]] on the own properties of an object. *)
Fixpoint get (o : obj) (k : string) : value :=
  match o with
  | [] => VUndefined
  | (k', v) :: rest => if String.eqb k' k then v else get rest k
  end.

Fixpoint lookup (A : Type) (o : list (string * A)) (k : string) : option A :=
  match o with
  | [] => None
  | (k', v) :: rest => if String.eqb k' k then Some v else lookup rest k
  end.

(** [o[k] = v]: an existing property keeps its place, a new one is
    added last. *)
Fixpoint set (A : Type) (o : list (string * A)) (k : string) (v : A) : list (string * A) :=
  match o with
  | [] => [(k, v)]
  | (k', v') :: rest =>
      if String.eqb k' k then (k', v) :: rest else (k', v') :: set rest k v
  end.

Definition keysOf (A : Type) (o : list (string * A)) : list string := map fst o.

(** The index names ["0"], ["1"], ... of an array or string of length [n]. *)
Definition indices (n : nat) : list string := map decimal (seq 0 n).

Fixpoint chars (s : string) : list value :=
  match s with
  | EmptyString => []
  | String c t => VStr (String c EmptyString) :: chars t
  end.

(** The element of [l] whose index name is [k], if [k] is one. *)
Definition atIndex (l : list value) (k : string) : value :=
  match find (fun i => String.eqb (decimal i) k) (seq 0 (List.length l)) with
  | Some i => nth i l VUndefined
  | None => VUndefined
  end.

(* ================================================================= *)
(** * Exceptions *)

(** Where the engine itself raises a [TypeError]. *)
Inductive typeErrorSite : Type :=
| ReadOfNullish (v : value) (p : string)   (* v.p, v undefined or null *)
| KeysOfNullish (v : value)                (* Object.keys(v) *)
| NotAFunction (v : value) (p : string).   (* v.p(...), v.p not callable *)

Inductive exn : Type :=
| Error (msg : string)                     (* throw new Error(msg) *)
| TypeError (site : typeErrorSite).

Inductive result (A : Type) : Type :=
| Ok (a : A)
| Throw (e : exn).

Arguments Ok {A} a.
Arguments Throw {A} e.

Definition bind (A B : Type) (r : result A) (k : A -> result B) : result B :=
  match r with
  | Ok a => k a
  | Throw e => Throw e
  end.

Notation "'do' x <- r ; k" := (bind r (fun x => k))
  (at level 10, x name, r at level 100, k at level 200).

(** [Object.keys(v)]. *)
Definition Object_keys (v : value) : result (list string) :=
  match v with
  | VUndefined | VNull => Throw (TypeError (KeysOfNullish v))
  | VObj props => Ok (keysOf props)
  | VArr elems => Ok (indices (List.length elems))
  | VStr s => Ok (indices (String.length s))
  | VBool _ | VNum _ => Ok []
  end.

(** [v[k]] for a name [k] that is one of [Object.keys(v)] or that
    neither [v] nor its prototypes define ([rate], [schedule]). *)
Definition getProp (v : value) (k : string) : result value :=
  match v with
  | VUndefined | VNull => Throw (TypeError (ReadOfNullish v k))
  | VObj props => Ok (get props k)
  | VArr elems => Ok (atIndex elems k)
  | VStr s => Ok (atIndex (chars s) k)
  | VBool _ | VNum _ => Ok VUndefined
  end.

(* ================================================================= *)
(** * The runtime table *)

Definition RUNTIMES_EXTENSIONS : list (string * list string) :=
  [ ("node8", ["ts"; "js"]);
    ("node10", ["ts"; "js"]);
    ("node14", ["ts"; "js"]);
    ("python", ["py"]);
    ("python3", ["py"]);
    ("golang", ["go"]) ].

(** [RUNTIMES_EXTENSIONS] is an object literal, so a property read that
    finds no own key goes on to [Object.prototype].  Its members, each
    with the [length] it has: the arity of a function, none for the
    prototype object that [__proto__] gives. *)
Definition Object_prototype : list (string * option nat) :=
  [ ("constructor", Some 1);
    ("hasOwnProperty", Some 1);
    ("isPrototypeOf", Some 1);
    ("propertyIsEnumerable", Some 1);
    ("toLocaleString", Some 0);
    ("toString", Some 0);
    ("valueOf", Some 0);
    ("__defineGetter__", Some 2);
    ("__defineSetter__", Some 2);
    ("__lookupGetter__", Some 1);
    ("__lookupSetter__", Some 1);
    ("__proto__", None) ].

(** What [RUNTIMES_EXTENSIONS[k]] evaluates to. *)
Inductive tableValue : Type :=
| Extensions (exts : list string)     (* an own key: its array *)
| Inherited (len : option nat)        (* a member of Object.prototype *)
| Absent.                             (* undefined *)

Definition readRuntime (k : string) : tableValue :=
  match lookup RUNTIMES_EXTENSIONS k with
  | Some exts => Extensions exts
  | None =>
      match lookup Object_prototype k with
      | Some len => Inherited len
      | None => Absent
      end
  end.

(** [!extensions] *)
Definition isAbsent (t : tableValue) : bool :=
  match t with Absent => true | _ => false end.

(** The values [extensions[i]] that the loop
    [for (i = 0; i < extensions.length; i += 1)] visits, each as the
    template literal prints it.  A function has no indexed property, so
    each of its [length] rounds reads [undefined]; without a [length]
    the loop does not run; [undefined.length] is a [TypeError]. *)
Definition visited (extensions : tableValue) : result (list string) :=
  match extensions with
  | Extensions exts => Ok exts
  | Inherited (Some n) => Ok (repeat (toString VUndefined) n)
  | Inherited None => Ok []
  | Absent => Throw (TypeError (ReadOfNullish VUndefined "length"))
  end.

(* ================================================================= *)
(** * The plugin object *)

Record custom : Type := {
  containers : option (list (string * obj))   (* custom.containers *)
}.

(** [this.serverless.service] *)
Record service : Type := {
  env : value;                                 (* provider.env *)
  functions : option (list (string * obj));
  customSection : option custom                (* custom *)
}.

(** [this] *)
Record plugin : Type := {
  servicePath : value;      (* this.serverless.config.servicePath *)
  scwToken : string;        (* this.provider.scwToken *)
  scwProject : string;      (* this.provider.getScwProject() *)
  runtime : value;          (* this.runtime *)
  svc : service             (* this.serverless.service *)
}.

(** How a promise chain ends: a thrown exception or the list of
    messages given to [BbPromise.reject]. *)
Inductive rejection : Type :=
| Fatal (e : exn)
| Errors (l : list string).

Inductive promise (A : Type) : Type :=
| Fulfilled (a : A)
| Rejected (r : rejection).

Arguments Fulfilled {A} a.
Arguments Rejected {A} r.

(* ================================================================= *)
(** * Sample configurations *)

Module Sample.

(** The wording of V8, which names the callee by the expression it is
    written as: [triggers.reduce] at line 167, [func.handler.split] at
    line 112, [TRIGGERS_VALIDATION[triggerName]] at line 185. *)
Definition v8Message (site : typeErrorSite) : string :=
  match site with
  | ReadOfNullish v p =>
      "Cannot read properties of " ++ toString v ++ " (reading '" ++ p ++ "')"
  | KeysOfNullish _ => "Cannot convert undefined or null to object"
  | NotAFunction _ p =>
      (if String.eqb p "reduce" then "triggers.reduce"
       else if String.eqb p "split" then "func.handler.split"
       else "TRIGGERS_VALIDATION[triggerName]")
        ++ " is not a function"
  end.

(** A working directory [/srv] holding [src/h.js] and [job.py];
    [resolve] is [path.resolve] on the relative paths that need no
    normalising (no empty, [.] or [..] segment). *)
Definition resolve (p : string) : string := "/srv/" ++ p.

Definition existsSync (p : string) : bool :=
  existsb (String.eqb p) ["/srv/src/h.js"; "/srv/job.py"].

(** The same directory with a file [src/h.undefined] as well. *)
Definition existsSync' (p : string) : bool :=
  existsb (String.eqb p) ["/srv/src/h.js"; "/srv/job.py"; "/srv/src/h.undefined"].

Definition token : string := "0f4a2c9e-7b1d-4e63-9a58-c2d7e1b03f46".

Definition web : obj := [("handler", VStr "src/h.main")].

Definition job : obj := [("handler", VStr "job.run"); ("runtime", VStr "python")].

Definition ruby : obj := [("handler", VStr "src/h.main"); ("runtime", VStr "ruby")].

Definition gopher : obj := [("handler", VStr "no.such.handler"); ("runtime", VStr "golang")].

Definition everyMinute : value :=
  VObj [("schedule", VObj [("rate", VStr "1 * * * *")])].

Definition triggers : list value :=
  [ everyMinute;
    VObj [("http", VObj [])];
    VObj [];
    VObj [("schedule", VObj [("rate", VStr "60 * * * *")])] ].

Definition pluginWith (rt : value) (fs : option (list (string * obj)))
    (cu : option custom) : plugin :=
  {| servicePath := VStr "/srv"; scwToken := token; scwProject := token;
     runtime := rt;
     svc := {| env := VObj [("KEY", VStr "value")]; functions := fs;
               customSection := cu |} |}.

(** One golang function, with a handler of three segments and no
    events, under the default runtime node14. *)
Definition goOnly : plugin :=
  pluginWith (VStr "node14") (Some [("gopher", gopher)]) None.

(** A function that declares the runtime [constructor]. *)
Definition builder : obj :=
  [("handler", VStr "src/h.main"); ("runtime", VStr "constructor")].

Definition inheritedOverride : plugin :=
  pluginWith (VStr "node14") (Some [("builder", builder)]) None.

(** The default runtime [constructor]. *)
Definition inheritedDefault : plugin :=
  pluginWith (VStr "constructor") (Some [("web", web)]) None.

(** A node function and a golang one, neither with events. *)
Definition mixed : plugin :=
  pluginWith (VStr "node14") (Some [("web", web); ("gopher", gopher)]) None.

(** A function with two events, the second of a kind that is not
    supported. *)
Definition webWithEvents : obj :=
  [ ("handler", VStr "src/h.main");
    ("events", VArr [everyMinute; VObj [("http", VObj [])]]) ].

Definition worker : obj := [("events", VArr triggers)].

(** Three functions and a container. *)
Definition full : plugin :=
  pluginWith (VStr "node14")
    (Some [("web", webWithEvents); ("job", job); ("gopher", gopher)])
    (Some {| containers := Some [("worker", worker)] |}).

(** A function whose events are a mapping, not a list. *)
Definition mappingEvents : obj :=
  [ ("handler", VStr "src/h.main");
    ("events", VObj [("schedule", VObj [("rate", VStr "1 * * * *")])]) ].

Definition broken : plugin :=
  pluginWith (VStr "node14") (Some [("web", mappingEvents)]) None.

(** A golang function under a default runtime that the table does not
    have. *)
Definition goUnderCobol : plugin :=
  pluginWith (VStr "cobol") (Some [("gopher", gopher)]) None.

(** The service of [goOnly] under a token that is too short. *)
Definition shortToken : plugin :=
  {| servicePath := VStr "/srv"; scwToken := "too-short"; scwProject := token;
     runtime := VStr "node14"; svc := svc goOnly |}.

End Sample.

(* ================================================================= *)
(** * The validator *)

Section Validate.

Set Default Proof Using "Type".

(** The wording the engine gives each [TypeError]. *)
Variable engineMessage : typeErrorSite -> string.

(** [fs.existsSync] on an absolute path, and [path.resolve('./', p)],
    the resolution of [p] against the current working directory. *)
Variable existsSync : string -> bool.
Variable resolve : string -> string.

(** [error.message] *)
Definition message (e : exn) : string :=
  match e with
  | Error msg => msg
  | TypeError site => engineMessage site
  end.

(** ** Triggers *)

Definition scheduleMessage (rate : value) : string :=
  "Trigger Schedule is invalid: " ++ toString rate
    ++ ", schedule should be formatted like a UNIX-Compliant Cronjob, for example: '1 * * * *'".

(** [TRIGGERS_VALIDATION.schedule] *)
Definition schedule (trigger : value) : result unit :=
  do rate <- getProp trigger "rate";
  if negb (truthy rate) || negb (test Cron.cronScheduleRegex (toString rate))
  then Throw (Error (scheduleMessage rate))
  else Ok tt.

Definition TRIGGERS_VALIDATION : list (string * (value -> result unit)) :=
  [ ("schedule", schedule) ].

Definition triggerKeysMessage : string :=
  "Trigger is invalid, it should contain at least one event type configuration (example: schedule).".

Definition triggerTypeMessage (triggerName : string) (authorizedTriggers : list string) : string :=
  "Trigger Type " ++ triggerName
    ++ " is not currently supported by Scaleway's Serverless platform, supported types are the following: "
    ++ join ", " authorizedTriggers.

(** The callback of [triggers.reduce] in [validateTriggers]. *)
Definition triggerStep (accumulator : list string) (trigger : value)
  : result (list string) :=
  do triggerKeys <- Object_keys trigger;
  if negb (Nat.eqb (List.length triggerKeys) 1)
  then Ok (accumulator ++ [triggerKeysMessage])%list
  else
    let triggerName := nth 0 triggerKeys EmptyString in
    let authorizedTriggers := keysOf TRIGGERS_VALIDATION in
    if negb (existsb (String.eqb triggerName) authorizedTriggers)
    then Ok (accumulator ++ [triggerTypeMessage triggerName authorizedTriggers])%list
    else
      let attempt :=
        match lookup TRIGGERS_VALIDATION triggerName with
        | Some validator => do payload <- getProp trigger triggerName; validator payload
        | None => Throw (TypeError (NotAFunction VUndefined triggerName))
        end in
      match attempt with
      | Throw error => Ok (accumulator ++ [message error])%list
      | Ok _ => Ok accumulator
      end.

(** [Array.prototype.reduce] with a callback that may throw. *)
Fixpoint reduce (A B : Type) (f : A -> B -> result A) (l : list B) (acc : A)
  : result A :=
  match l with
  | [] => Ok acc
  | x :: t => do acc' <- f acc x; reduce f t acc'
  end.

Definition validateTriggers (triggers : value) : result (list string) :=
  match triggers with
  | VArr elems => reduce triggerStep elems []
  | VUndefined | VNull => Throw (TypeError (ReadOfNullish triggers "reduce"))
  | _ => Throw (TypeError (NotAFunction triggers "reduce"))
  end.

(** ** Environment variables *)

Definition envMessage (variableName : string) : string :=
  "Variable " ++ variableName
    ++ ": variable is invalid, environment variables may only be strings".

Definition envStep (variables : value) (errors : list string) (variableName : string)
  : result (list string) :=
  do variable <- getProp variables variableName;
  if negb (String.eqb (typeof variable) "string")
  then Ok (errors ++ [envMessage variableName])%list
  else Ok errors.

Definition validateEnv (variables : value) : result (list string) :=
  if negb (truthy variables) then Ok []
  else if negb (String.eqb (typeof variables) "object")
  then Throw (Error "Environment variables should be a map of strings under the form: key - value")
  else
    do variableNames <- Object_keys variables;
    reduce (envStep variables) variableNames [].

(** ** Preconditions *)

Definition validateServicePath (this : plugin) : result unit :=
  if negb (truthy (servicePath this))
  then Throw (Error "This command can only be run inside a service directory")
  else Ok tt.

Definition credentialsMessage : string :=
  join EmptyString
    [ "Either " ++ quoted "scwToken" ++ " or " ++ quoted "scwProject" ++ " is invalid.";
      " Credentials to deploy on your Scaleway Account are required, please read the documentation." ].

Definition validateCredentials (this : plugin) : result unit :=
  if negb (Nat.eqb (String.length (scwToken this)) 36)
     || negb (Nat.eqb (String.length (scwProject this)) 36)
  then Throw (Error credentialsMessage)
  else Ok tt.

(** [Array.isArray(errors) ? errors : []] on what the previous step
    of the chain resolved to; [None] is any value but an array. *)
Definition currentErrorsOf (errors : option (list string)) : list string :=
  match errors with
  | Some l => l
  | None => []
  end.

(** [checkErrors] on what [validateApplications] resolves to, an
    array ([Some]), or on [undefined] ([None]). *)
Definition checkErrors (errors : option (list string)) : promise unit :=
  match errors with
  | None => Fulfilled tt
  | Some l => if Nat.eqb (List.length l) 0 then Fulfilled tt else Rejected (Errors l)
  end.

Definition validateNamespace (this : plugin) (errors : option (list string))
  : result (list string) :=
  let currentErrors := currentErrorsOf errors in
  let namespaceEnvVars := env (svc this) in
  do namespaceErrors <- validateEnv namespaceEnvVars;
  Ok (currentErrors ++ namespaceErrors)%list.

(** ** Functions and containers *)

Definition runtimeMessage (this : plugin) : string :=
  let availableRuntimesMessage := join ", " (keysOf RUNTIMES_EXTENSIONS) in
  "Runtime " ++ toString (runtime this)
    ++ " is not supported. Function runtime must be one of the following: "
    ++ availableRuntimesMessage.

Definition handlerMessage (functionName : string) (handler : value) : string :=
  "Handler file defined for function " ++ functionName
    ++ " does not exist (" ++ toString handler ++ ").".

Definition emptyMessage : string :=
  "You must define at least one function or container to deploy under the functions or custom key.".

(** [v === 'golang'] *)
Definition isGolang (v : value) : bool :=
  match v with
  | VStr s => String.eqb s "golang"
  | _ => false
  end.

(** [fs.existsSync(path.resolve('./', handler))] for the candidate
    [handler] of one extension. *)
Definition candidateExists (handlerPath extension : string) : bool :=
  let handler := handlerPath ++ "." ++ extension in
  existsSync (resolve handler).

(** One round of the extension loop. *)
Definition probe (handlerPath : string) (handlerFileExists : bool) (extension : string)
  : bool :=
  if candidateExists handlerPath extension then true else handlerFileExists.

(** The body of the [try] block, lines 110-131.  [extensions] is the
    binding of line 87: the one of line 102 is local to the [if]
    block before it. *)
Definition handlerTry (extensions : tableValue) (functionName : string) (handler : value)
  : result unit :=
  match handler with
  | VStr h =>
      let splitHandlerPath := split "." h in
      if negb (Nat.eqb (List.length splitHandlerPath) 2)
      then Throw (Error ("Handler is malformatted for " ++ functionName
                           ++ ": handler should be path/to/file.functionInsideFile"))
      else
        let handlerPath := nth 0 splitHandlerPath EmptyString in
        do exts <- visited extensions;
        let handlerFileExists := fold_left (probe handlerPath) exts false in
        if negb handlerFileExists
        then Throw (Error "File does not exists")
        else Ok tt
  | VUndefined | VNull => Throw (TypeError (ReadOfNullish handler "split"))
  | _ => Throw (TypeError (NotAFunction handler "split"))
  end.

(** [x || []] *)
Definition orEmpty (x : value) : value :=
  if truthy x then x else VArr [].

(** Lines 101-107: what the check of the function's own runtime
    pushes. *)
Definition overrideErrors (this : plugin) (func : obj) : list string :=
  if truthy (get func "runtime")
  then
    let extensions := readRuntime (toString (get func "runtime")) in
    if isAbsent extensions then [runtimeMessage this] else []
  else [].

(** Lines 110-135: what the [catch] block pushes. *)
Definition handlerErrors (extensions : tableValue) (functionName : string) (func : obj)
  : list string :=
  match handlerTry extensions functionName (get func "handler") with
  | Ok _ => []
  | Throw _ => [handlerMessage functionName (get func "handler")]
  end.

(** Line 96 *)
Definition skipsValidation (this : plugin) (func : obj) : bool :=
  isGolang (get func "runtime")
  || (negb (truthy (get func "runtime")) && isGolang (runtime this)).

(** [entity.events = entity.events || []] *)
Definition defaultEvents (entity : obj) : obj :=
  set entity "events" (orEmpty (get entity "events")).

(** The callback of [functionNames.forEach], lines 93-140: the
    function object as it is left and the new [functionErrors].
    [extensions] is the binding of line 87. *)
Definition functionStep (this : plugin) (extensions : tableValue)
    (functionName : string) (func : obj) (functionErrors : list string)
  : obj * result (list string) :=
  if skipsValidation this func
  then (func, Ok functionErrors)
  else
    let pushed :=
      (functionErrors ++ overrideErrors this func
         ++ handlerErrors extensions functionName func)%list in
    let func' := defaultEvents func in
    (func', do triggerErrors <- validateTriggers (get func' "events");
            Ok (pushed ++ triggerErrors)%list).

(** The callback of [containerNames.forEach], lines 151-155. *)
Definition containerStep (containerName : string) (container : obj)
    (functionErrors : list string)
  : obj * result (list string) :=
  let container' := defaultEvents container in
  (container', do triggerErrors <- validateTriggers (get container' "events");
               Ok (functionErrors ++ triggerErrors)%list).

(** [names.forEach(name => step(entries[name]))] where [step] may
    update the entry in place and may throw; [firstRead] is the
    property the callback reads first. *)
Fixpoint forEach (step : string -> obj -> list string -> obj * result (list string))
    (firstRead : string) (names : list string) (entries : list (string * obj))
    (errs : list string)
  : list (string * obj) * result (list string) :=
  match names with
  | [] => (entries, Ok errs)
  | name :: rest =>
      match lookup entries name with
      | None => (entries, Throw (TypeError (ReadOfNullish VUndefined firstRead)))
      | Some entry =>
          let (entry', r) := step name entry errs in
          let entries' := set entries name entry' in
          match r with
          | Ok errs' => forEach step firstRead rest entries' errs'
          | Throw e => (entries', Throw e)
          end
      end
  end.

(** [o && Object.keys(o).length !== 0] *)
Definition nonEmpty (o : option (list (string * obj))) : bool :=
  match o with
  | Some entries => negb (Nat.eqb (List.length (keysOf entries)) 0)
  | None => false
  end.

Definition entriesOf (o : option (list (string * obj))) : list (string * obj) :=
  match o with
  | Some entries => entries
  | None => []
  end.

Definition validateApplications (this : plugin) (errors : option (list string))
  : service * result (list string) :=
  let currentErrors := currentErrorsOf errors in
  let functions_ := functions (svc this) in
  (* functions *)
  let '(functions', functionNames, r1) :=
    if nonEmpty functions_
    then
      let functionNames := keysOf (entriesOf functions_) in
      let extensions := readRuntime (toString (runtime this)) in
      let functionErrors :=
        if isAbsent extensions then [runtimeMessage this] else [] in
      let (fs, r) :=
        forEach (functionStep this extensions) "runtime" functionNames
          (entriesOf functions_) functionErrors in
      (Some fs, functionNames, r)
    else (functions_, [], Ok []) in
  let service1 :=
    {| env := env (svc this); functions := functions';
       customSection := customSection (svc this) |} in
  match r1 with
  | Throw e => (service1, Throw e)
  | Ok functionErrors1 =>
      (* containers *)
      let containers_ :=
        match customSection (svc this) with
        | Some c => containers c
        | None => Some []
        end in
      let '(containers', containerNames, r2) :=
        if nonEmpty containers_
        then
          let containerNames := keysOf (entriesOf containers_) in
          let (cs, r) :=
            forEach containerStep "events" containerNames
              (entriesOf containers_) functionErrors1 in
          (Some cs, containerNames, r)
        else (containers_, [], Ok functionErrors1) in
      let service2 :=
        {| env := env (svc this); functions := functions';
           customSection :=
             match customSection (svc this) with
             | Some _ => Some {| containers := containers' |}
             | None => None
             end |} in
      match r2 with
      | Throw e => (service2, Throw e)
      | Ok functionErrors2 =>
          let functionErrors3 :=
            if Nat.eqb (List.length functionNames) 0
               && Nat.eqb (List.length containerNames) 0
            then (functionErrors2 ++ [emptyMessage])%list
            else functionErrors2 in
          (service2, Ok (currentErrors ++ functionErrors3)%list)
      end
  end.

(** ** The pipeline *)

(** [validate()]: the service as the chain leaves it and how the
    chain ends.  [validateServicePath] and [validateCredentials]
    resolve to [undefined]. *)
Definition validate (this : plugin) : service * promise unit :=
  match validateServicePath this with
  | Throw e => (svc this, Rejected (Fatal e))
  | Ok _ =>
      match validateCredentials this with
      | Throw e => (svc this, Rejected (Fatal e))
      | Ok _ =>
          match validateNamespace this None with
          | Throw e => (svc this, Rejected (Fatal e))
          | Ok errors1 =>
              match validateApplications this (Some errors1) with
              | (s, Throw e) => (s, Rejected (Fatal e))
              | (s, Ok errors2) => (s, checkErrors (Some errors2))
              end
          end
      end
  end.

(** ** Notions the statements below are phrased with *)

Definition nullish (v : value) : bool :=
  match v with
  | VUndefined | VNull => true
  | _ => false
  end.

(** The payload has a rate that, read as a string, is a cron
    expression. *)
Definition hasCronRate (payload : value) : Prop :=
  exists rate, getProp payload "rate" = Ok rate /\ cronGrammar (toString rate).

(** What one trigger contributes to the result of
    [validateTriggers], case by case. *)
Inductive triggerVerdict (trigger : value) : list string -> Prop :=
| NotOneKey (keys : list string) :
    Object_keys trigger = Ok keys ->
    List.length keys <> 1 ->
    triggerVerdict trigger [triggerKeysMessage]
| UnknownKind (kind : string) :
    Object_keys trigger = Ok [kind] ->
    kind <> "schedule" ->
    triggerVerdict trigger [triggerTypeMessage kind ["schedule"]]
| ValidatorFails (payload : value) (e : exn) :
    Object_keys trigger = Ok ["schedule"] ->
    getProp trigger "schedule" = Ok payload ->
    schedule payload = Throw e ->
    triggerVerdict trigger [message e]
| Passes (payload : value) :
    Object_keys trigger = Ok ["schedule"] ->
    getProp trigger "schedule" = Ok payload ->
    schedule payload = Ok tt ->
    triggerVerdict trigger [].

Definition isString (v : value) : bool :=
  match v with
  | VStr _ => true
  | _ => false
  end.

(** The entries of a mapping whose value is not a string, in order. *)
Definition nonStringEntries (props : obj) : list (string * value) :=
  filter (fun entry => negb (isString (snd entry))) props.

(** [forEach] when names are distinct: the entries are visited one
    after the other, each updated where it stands. *)
Fixpoint walk (step : string -> obj -> list string -> obj * result (list string))
    (entries : list (string * obj)) (errs : list string)
  : list (string * obj) * result (list string) :=
  match entries with
  | [] => ([], Ok errs)
  | (name, entry) :: rest =>
      let (entry', r) := step name entry errs in
      match r with
      | Ok errs' =>
          let (rest', r') := walk step rest errs' in
          ((name, entry') :: rest', r')
      | Throw e => ((name, entry') :: rest, Throw e)
      end
  end.

Definition mapEntries (f : obj -> obj) (entries : list (string * obj))
  : list (string * obj) :=
  map (fun entry => (fst entry, f (snd entry))) entries.

(** A function object after a validation that ran through. *)
Definition normalizeFunction (this : plugin) (func : obj) : obj :=
  if skipsValidation this func then func else defaultEvents func.

(** The service after a validation that ran through. *)
Definition normalizeService (this : plugin) (s : service) : service :=
  {| env := env s;
     functions := option_map (mapEntries (normalizeFunction this)) (functions s);
     customSection :=
       option_map
         (fun c => {| containers := option_map (mapEntries defaultEvents) (containers c) |})
         (customSection s) |}.

(** An entry is as it was or as [f] leaves it. *)
Definition entryKept (f : obj -> obj) (old new : string * obj) : Prop :=
  fst new = fst old /\ (snd new = snd old \/ snd new = f (snd old)).

Definition entriesKept (f : obj -> obj) (old new : option (list (string * obj))) : Prop :=
  match old, new with
  | Some o, Some n => Forall2 (entryKept f) o n
  | None, None => True
  | _, _ => False
  end.

(** The service differs from what it was at most by defaulted
    [events]. *)
Definition serviceKept (this : plugin) (old new : service) : Prop :=
  env new = env old
  /\ entriesKept (normalizeFunction this) (functions old) (functions new)
  /\ match customSection old, customSection new with
     | Some c, Some c' => entriesKept defaultEvents (containers c) (containers c')
     | None, None => True
     | _, _ => False
     end.

(** Names of a JavaScript object are distinct. *)
Definition distinctNames (o : option (list (string * obj))) : Prop :=
  NoDup (keysOf (entriesOf o)).

Definition wellFormed (s : service) : Prop :=
  distinctNames (functions s)
  /\ match customSection s with
     | Some c => distinctNames (containers c)
     | None => True
     end.

(** [this] with another service. *)
Definition withService (this : plugin) (s : service) : plugin :=
  {| servicePath := servicePath this; scwToken := scwToken this;
     scwProject := scwProject this; runtime := runtime this; svc := s |}.

(** The rate under the key [schedule] of a trigger, if there is one,
    is printable. *)
Definition ratePrints (trigger : value) : bool :=
  match getProp trigger "schedule" with
  | Ok payload =>
      match getProp payload "rate" with
      | Ok rate => printable rate
      | Throw _ => true
      end
  | Throw _ => true
  end.

(** The events of an entity, once defaulted, are an array without
    [undefined] or [null] element, on which [validateTriggers]
    returns, and the rates in it are printable. *)
Definition cleanEvents (entity : obj) : Prop :=
  exists triggers,
    orEmpty (get entity "events") = VArr triggers
    /\ Forall (fun t => nullish t = false /\ ratePrints t = true) triggers.

(** The runtime and the handler of a function are printable and its
    events are clean. *)
Definition plainFunction (func : obj) : Prop :=
  printable (get func "runtime") = true
  /\ printable (get func "handler") = true
  /\ cleanEvents func.

(** What [validateTriggers] returns on the defaulted events of an
    entity, nothing if it throws. *)
Definition triggerErrorsOf (entity : obj) : list string :=
  match validateTriggers (orEmpty (get entity "events")) with
  | Ok errs => errs
  | Throw _ => []
  end.

(** What one function adds to [functionErrors]. *)
Definition functionErrorsOf (this : plugin) (extensions : tableValue)
    (entry : string * obj) : list string :=
  if skipsValidation this (snd entry) then []
  else (overrideErrors this (snd entry)
          ++ handlerErrors extensions (fst entry) (snd entry)
          ++ triggerErrorsOf (snd entry))%list.

(** What the check of the default runtime, line 88, adds: nothing
    unless there is a function. *)
Definition defaultRuntimeErrors (this : plugin) : list string :=
  if nonEmpty (functions (svc this))
  then if isAbsent (readRuntime (toString (runtime this)))
       then [runtimeMessage this] else []
  else [].

(** The containers the loop of line 151 walks. *)
Definition containersOf (s : service) : list (string * obj) :=
  match customSection s with
  | Some c => entriesOf (containers c)
  | None => []
  end.

(** What the check of line 158 adds. *)
Definition emptyErrors (s : service) : list string :=
  match entriesOf (functions s), containersOf s with
  | [], [] => [emptyMessage]
  | _, _ => []
  end.

(** An array seen as the mapping from its indices to its elements. *)
Definition indexed (elems : list value) : obj :=
  combine (indices (List.length elems)) elems.

(** [trigger] is a schedule whose payload the validator accepts. *)
Definition validSchedule (trigger : value) : Prop :=
  exists payload,
    Object_keys trigger = Ok ["schedule"]
    /\ getProp trigger "schedule" = Ok payload
    /\ schedule payload = Ok tt.

(* ================================================================= *)
(** * Properties *)

(** ** Strings and lists *)

Lemma append_assoc (a b c : string) : (a ++ b) ++ c = a ++ b ++ c.
Proof. induction a as [|x a IH]; simpl; [reflexivity | now rewrite IH]. Qed.

Lemma append_nil_r (a : string) : a ++ EmptyString = a.
Proof. induction a as [|x a IH]; simpl; [reflexivity | now rewrite IH]. Qed.

Lemma contains_middle (pre s post : string) : contains (pre ++ s ++ post) s.
Proof. now exists pre, post. Qed.

(** ** The matcher *)

Lemma run_spec (r : regex) :
  forall s t, In t (run r s) <-> exists u, s = u ++ t /\ lang r u.
Proof.
  induction r as [c | lo hi | r1 IH1 r2 IH2 | r1 IH1 r2 IH2]; intros s t; simpl.
  - destruct s as [|d s'].
    + split; [intros [] | intros (u & E & ->); discriminate].
    + destruct (Ascii.eqb_spec c d) as [->|N]; simpl.
      * split.
        -- intros [<-|[]]. now exists (String d EmptyString).
        -- intros (u & E & ->). simpl in E. injection E as <-. now left.
      * split; [intros [] | intros (u & E & ->)]. simpl in E. congruence.
  - destruct s as [|d s'].
    + split; [intros [] | intros (u & E & d & -> & _); discriminate].
    + destruct (inRange lo hi d) eqn:R; simpl.
      * split.
        -- intros [<-|[]]. exists (String d EmptyString). split; [reflexivity|]. now exists d.
        -- intros (u & E & d' & -> & _). simpl in E. injection E as _ <-. now left.
      * split; [intros [] | intros (u & E & d' & -> & R')].
        simpl in E. injection E as <- _. congruence.
  - rewrite in_app_iff, IH1, IH2. split.
    + intros [(u & E & L) | (u & E & L)]; exists u; split; auto.
    + intros (u & E & [L | L]); [left | right]; now exists u.
  - rewrite in_flat_map. split.
    + intros (m & Hm & Ht). apply IH1 in Hm as (u1 & -> & L1).
      apply IH2 in Ht as (u2 & -> & L2).
      exists (u1 ++ u2). split; [now rewrite append_assoc|]. now exists u1, u2.
    + intros (u & -> & u1 & u2 & -> & L1 & L2).
      exists (u2 ++ t). split.
      * apply IH1. exists u1. split; [now rewrite append_assoc | assumption].
      * apply IH2. now exists u2.
Qed.

(** [test] decides membership in the language. *)
Lemma test_spec (r : regex) (s : string) : test r s = true <-> lang r s.
Proof.
  unfold test. rewrite existsb_exists. split.
  - intros (t & Ht & E). destruct t; [|discriminate].
    apply run_spec in Ht as (u & -> & L). now rewrite append_nil_r.
  - intros L. exists EmptyString. split; [|reflexivity].
    apply run_spec. exists s. now rewrite append_nil_r.
Qed.

Lemma words_spec (r : regex) : forall s, In s (words r) <-> lang r s.
Proof.
  induction r as [c | lo hi | r1 IH1 r2 IH2 | r1 IH1 r2 IH2]; intros s; simpl.
  - split; [intros [<-|[]]; reflexivity | intros ->; now left].
  - rewrite in_map_iff. unfold inRange. split.
    + intros (n & <- & Hn). apply in_seq in Hn.
      pose proof (nat_ascii_bounded hi) as Hb.
      exists (ascii_of_nat n). split; [reflexivity|].
      rewrite nat_ascii_embedding by lia.
      apply andb_true_iff. split; apply Nat.leb_le; lia.
    + intros (d & -> & Hd). apply andb_true_iff in Hd as [H1 H2].
      apply Nat.leb_le in H1, H2.
      exists (nat_of_ascii d). split; [now rewrite ascii_nat_embedding|].
      apply in_seq. lia.
  - rewrite in_app_iff, IH1, IH2. reflexivity.
  - rewrite in_flat_map. split.
    + intros (u & Hu & Hs). apply in_map_iff in Hs as (v & <- & Hv).
      exists u, v. rewrite <- IH1, <- IH2. auto.
    + intros (u & v & -> & L1 & L2). exists u. split; [now apply IH1|].
      apply in_map_iff. exists v. split; [reflexivity | now apply IH2].
Qed.

(** ** The cron expression *)

(** A number branch of the expression denotes the decimal numerals
    of a range as soon as its words are those numerals. *)
Lemma number_words (num : regex) (lo hi : nat) :
  words num = map decimal (seq lo (hi + 1 - lo)) ->
  forall f, lang num f <-> cronNumber lo hi f.
Proof.
  intros W f. rewrite <- words_spec, W, in_map_iff. unfold cronNumber. split.
  - intros (n & <- & Hn). apply in_seq in Hn. exists n. split; [lia | reflexivity].
  - intros (n & Hn & ->). exists n. split; [reflexivity|]. apply in_seq. lia.
Qed.

Lemma field_spec (num : regex) (lo hi : nat) :
  (forall f, lang num f <-> cronNumber lo hi f) ->
  forall f, lang (Cron.field num) f <-> cronField lo hi f.
Proof.
  intros N f. unfold cronField. simpl. rewrite N. split.
  - intros [-> | [H | (u & v & -> & -> & u' & v' & -> & -> & H)]].
    + now left.
    + right; now left.
    + right; right. exists v'. split; [reflexivity | now apply N].
  - intros [-> | [H | (n & -> & H)]].
    + now left.
    + right; now left.
    + right; right. exists "*", ("/" ++ n). split; [reflexivity|].
      split; [reflexivity|]. exists "/", n. split; [reflexivity|].
      split; [reflexivity | now apply N].
Qed.

Lemma spaced_spec (a b : regex) (s : string) :
  lang (Cat a (Cat Cron.space b)) s
  <-> exists u v, s = u ++ " " ++ v /\ lang a u /\ lang b v.
Proof.
  simpl. split.
  - intros (u & w & -> & La & sp & v & -> & -> & Lb). now exists u, v.
  - intros (u & v & -> & La & Lb). exists u, (" " ++ v). split; [reflexivity|].
    split; [assumption|]. now exists " ", v.
Qed.

Lemma minute_spec f : lang (Cron.field Cron.minuteNum) f <-> cronField 0 59 f.
Proof. apply field_spec, number_words. reflexivity. Qed.

Lemma hour_spec f : lang (Cron.field Cron.hourNum) f <-> cronField 0 23 f.
Proof. apply field_spec, number_words. reflexivity. Qed.

Lemma dayOfMonth_spec f : lang (Cron.field Cron.dayOfMonthNum) f <-> cronField 1 31 f.
Proof. apply field_spec, number_words. reflexivity. Qed.

Lemma month_spec f : lang (Cron.field Cron.monthNum) f <-> cronField 1 12 f.
Proof. apply field_spec, number_words. reflexivity. Qed.

Lemma dayOfWeek_spec f : lang (Cron.field Cron.dayOfWeekNum) f <-> cronField 0 6 f.
Proof. apply field_spec, number_words. reflexivity. Qed.

(** The regular expression accepts exactly the strings of the
    grammar. *)
Lemma cron_regex_grammar (s : string) :
  test Cron.cronScheduleRegex s = true <-> cronGrammar s.
Proof.
  rewrite test_spec. unfold Cron.cronScheduleRegex, cronGrammar. cbn [cats]. split.
  - intros H.
    apply spaced_spec in H as (mi & r1 & -> & Lmi & H).
    apply spaced_spec in H as (h & r2 & -> & Lh & H).
    apply spaced_spec in H as (dom & r3 & -> & Ldom & H).
    apply spaced_spec in H as (mo & dow & -> & Lmo & Ldow).
    exists mi, h, dom, mo, dow.
    rewrite <- minute_spec, <- hour_spec, <- dayOfMonth_spec, <- month_spec,
      <- dayOfWeek_spec.
    repeat split; assumption.
  - intros (mi & h & dom & mo & dow & -> & Lmi & Lh & Ldom & Lmo & Ldow).
    apply spaced_spec. exists mi, (h ++ " " ++ dom ++ " " ++ mo ++ " " ++ dow).
    split; [reflexivity|]. split; [now apply minute_spec|].
    apply spaced_spec. exists h, (dom ++ " " ++ mo ++ " " ++ dow).
    split; [reflexivity|]. split; [now apply hour_spec|].
    apply spaced_spec. exists dom, (mo ++ " " ++ dow).
    split; [reflexivity|]. split; [now apply dayOfMonth_spec|].
    apply spaced_spec. exists mo, dow.
    split; [reflexivity|]. split; [now apply month_spec | now apply dayOfWeek_spec].
Qed.

(** No falsy value prints as a cron expression. *)
Lemma falsy_not_cron (rate : value) :
  truthy rate = false -> test Cron.cronScheduleRegex (toString rate) = false.
Proof.
  destruct rate as [ | | b | n | s | l | o]; simpl; intros F;
    try discriminate; try reflexivity.
  - now subst b.
  - apply negb_false_iff, Z.eqb_eq in F. now subst n.
  - destruct s; [reflexivity | discriminate].
Qed.

(** ** The schedule validator *)

Lemma schedule_eq (payload rate : value) :
  getProp payload "rate" = Ok rate ->
  schedule payload =
    if test Cron.cronScheduleRegex (toString rate)
    then Ok tt else Throw (Error (scheduleMessage rate)).
Proof.
  intros G. unfold schedule. rewrite G. simpl.
  destruct (truthy rate) eqn:T; simpl.
  - now destruct (test Cron.cronScheduleRegex (toString rate)).
  - now rewrite falsy_not_cron.
Qed.

(** C1, amended.  The schedule validator accepts a payload exactly
    when the payload has a rate that is a cron expression of the
    five-field grammar; every other payload makes it throw.  A payload
    that is [undefined] or [null] has no rate to read: what is thrown
    is the [TypeError] of the read, which echoes no rate.  On any
    other payload a rate that is not a cron expression, when it is
    printable, gives the schedule error, whose message contains the
    rate as it prints. *)
Theorem schedule_spec (payload : value) :
  (schedule payload = Ok tt <-> hasCronRate payload)
  /\ (~ hasCronRate payload -> exists e, schedule payload = Throw e)
  /\ (nullish payload = true ->
      schedule payload = Throw (TypeError (ReadOfNullish payload "rate")))
  /\ (nullish payload = false -> exists rate, getProp payload "rate" = Ok rate)
  /\ (forall rate,
        getProp payload "rate" = Ok rate ->
        printable rate = true ->
        ~ cronGrammar (toString rate) ->
        schedule payload = Throw (Error (scheduleMessage rate))
        /\ contains (scheduleMessage rate) (toString rate)).
Proof.
  assert (A : schedule payload = Ok tt <-> hasCronRate payload).
  { unfold hasCronRate. destruct (getProp payload "rate") as [rate|e] eqn:G.
    - rewrite (schedule_eq _ G).
      destruct (test Cron.cronScheduleRegex (toString rate)) eqn:T.
      + split; [|reflexivity]. intros _. exists rate. split; [reflexivity|].
        now apply cron_regex_grammar.
      + split; [discriminate|]. intros (rate' & [= <-] & C).
        apply cron_regex_grammar in C. congruence.
    - unfold schedule. rewrite G. simpl.
      split; [discriminate | intros (rate' & E & _); discriminate]. }
  split; [exact A|]. split; [|split; [|split]].
  - intros N. destruct (schedule payload) as [[]|e] eqn:S.
    + exfalso. now apply N, A.
    + now exists e.
  - intros N. destruct payload; try discriminate N; reflexivity.
  - intros N. destruct payload; try discriminate N; simpl; eauto.
  - intros rate G _ N. rewrite (schedule_eq _ G).
    destruct (test Cron.cronScheduleRegex (toString rate)) eqn:T.
    + exfalso. now apply N, cron_regex_grammar.
    + split; [reflexivity|]. unfold scheduleMessage. apply contains_middle.
Qed.

(** ** Triggers *)

Lemma getProp_defined (v : value) (k : string) :
  nullish v = false -> exists x, getProp v k = Ok x.
Proof. destruct v; simpl; intros N; try discriminate; eauto. Qed.

Lemma keys_defined (v : value) :
  nullish v = false -> exists keys, Object_keys v = Ok keys.
Proof. destruct v; simpl; intros N; try discriminate; eauto. Qed.

(** One round of the reduction appends the verdict on its trigger. *)
Lemma triggerStep_verdict (accumulator : list string) (trigger : value) :
  nullish trigger = false ->
  exists errs,
    triggerStep accumulator trigger = Ok (accumulator ++ errs)%list
    /\ triggerVerdict trigger errs.
Proof.
  intros N. unfold triggerStep.
  destruct (keys_defined _ N) as (keys & K). rewrite K. simpl.
  destruct keys as [|kind [|k2 rest]]; simpl.
  - exists [triggerKeysMessage]. split; [reflexivity|].
    apply NotOneKey with (keys := []); [assumption | discriminate].
  - rewrite orb_false_r. destruct (String.eqb_spec kind "schedule") as [->|D]; simpl.
    + destruct (getProp_defined trigger "schedule" N) as (payload & G). rewrite G. simpl.
      destruct (schedule payload) as [[]|e] eqn:S.
      * exists []. split; [now rewrite app_nil_r | now apply Passes with payload].
      * exists [message e]. split; [reflexivity | now apply ValidatorFails with payload].
    + exists [triggerTypeMessage kind ["schedule"]]. split; [reflexivity|].
      now apply UnknownKind.
  - exists [triggerKeysMessage]. split; [reflexivity|].
    apply NotOneKey with (keys := kind :: k2 :: rest); [assumption | discriminate].
Qed.

Lemma reduce_triggers (triggers : list value) :
  Forall (fun t => nullish t = false) triggers ->
  forall accumulator,
  exists per,
    reduce triggerStep triggers accumulator = Ok (accumulator ++ List.concat per)%list
    /\ Forall2 triggerVerdict triggers per.
Proof.
  induction 1 as [|t rest Ht Hrest IH]; intros acc; simpl.
  - exists []. split; [now rewrite app_nil_r | constructor].
  - destruct (triggerStep_verdict acc t Ht) as (errs & E & V). rewrite E. simpl.
    destruct (IH (acc ++ errs)%list) as (per & R & F).
    exists (errs :: per). split; [|now constructor].
    rewrite R. simpl. now rewrite app_assoc.
Qed.




(** ** Environment variables *)

Lemma typeof_string (v : value) : String.eqb (typeof v) "string" = isString v.
Proof. destruct v; reflexivity. Qed.

Lemma get_distinct (props : obj) :
  NoDup (keysOf props) ->
  Forall (fun entry => get props (fst entry) = snd entry) props.
Proof.
  induction props as [|[k v] rest IH]; simpl; intros D; constructor.
  - simpl. now rewrite String.eqb_refl.
  - inversion D as [|? ? Hk Hrest]; subst.
    specialize (IH Hrest). rewrite Forall_forall in *.
    intros [k' v'] I. simpl.
    destruct (String.eqb_spec k k') as [->|_].
    + exfalso. apply Hk. unfold keysOf. apply in_map_iff. now exists (k', v').
    + now apply IH in I.
Qed.

Lemma reduce_env (props entries : obj) :
  Forall (fun entry => get props (fst entry) = snd entry) entries ->
  forall errors,
    reduce (envStep (VObj props)) (keysOf entries) errors
    = Ok (errors ++ map envMessage (keysOf (nonStringEntries entries)))%list.
Proof.
  induction 1 as [|[k v] rest Hk Hrest IH]; intros errors; simpl.
  - now rewrite app_nil_r.
  - unfold envStep at 1. simpl. simpl in Hk. rewrite Hk, typeof_string.
    destruct (isString v); simpl; rewrite IH.
    + reflexivity.
    + now rewrite <- app_assoc.
Qed.

(** C7, amended.  [validateEnv] returns no error for an absent input
    and for any other falsy one; throws, and aggregates nothing, for
    a truthy input that is not an object; and for a mapping returns
    the variable message of each entry whose value is not a string,
    in the order of the mapping, and nothing for the other
    entries. *)
Theorem validateEnv_spec :
  (forall variables, truthy variables = false -> validateEnv variables = Ok [])
  /\ (forall variables,
        truthy variables = true ->
        typeof variables <> "object" ->
        validateEnv variables
        = Throw (Error "Environment variables should be a map of strings under the form: key - value"))
  /\ (forall props,
        NoDup (keysOf props) ->
        validateEnv (VObj props)
        = Ok (map envMessage (keysOf (nonStringEntries props)))).
Proof.
  split; [|split].
  - intros v F. unfold validateEnv. now rewrite F.
  - intros v T O. unfold validateEnv. rewrite T. simpl.
    destruct (String.eqb_spec (typeof v) "object") as [E|_]; [contradiction | reflexivity].
  - intros props D. unfold validateEnv. simpl.
    exact (@reduce_env props props (get_distinct props D) []).
Qed.

(** ** Credentials and the final step *)

Lemma validateCredentials_cases (this : plugin) :
  (String.length (scwToken this) = 36 /\ String.length (scwProject this) = 36
   /\ validateCredentials this = Ok tt)
  \/ ((String.length (scwToken this) <> 36 \/ String.length (scwProject this) <> 36)
      /\ validateCredentials this = Throw (Error credentialsMessage)).
Proof.
  unfold validateCredentials.
  destruct (Nat.eqb_spec (String.length (scwToken this)) 36) as [T|T];
    destruct (Nat.eqb_spec (String.length (scwProject this)) 36) as [P|P]; simpl; auto.
Qed.

Lemma validateApplications_prefix (this : plugin) (errors : option (list string))
    (s : service) (all : list string) :
  validateApplications this errors = (s, Ok all) ->
  exists applicationErrors, all = (currentErrorsOf errors ++ applicationErrors)%list.
Proof.
  unfold validateApplications.
  destruct (nonEmpty (functions (svc this))).
  - destruct (forEach _ _ _ _ _) as [fs [e1|x]]; [|discriminate].
    destruct (nonEmpty _).
    + destruct (forEach _ _ _ _ _) as [cs [e2|x]]; [|discriminate].
      intros [= _ <-]. eauto.
    + intros [= _ <-]. eauto.
  - destruct (nonEmpty _).
    + destruct (forEach _ _ _ _ _) as [cs [e2|x]]; [|discriminate].
      intros [= _ <-]. eauto.
    + intros [= _ <-]. eauto.
Qed.

Lemma checkErrors_cases (errors : list string) :
  (errors = [] /\ checkErrors (Some errors) = Fulfilled tt)
  \/ (errors <> [] /\ checkErrors (Some errors) = Rejected (Errors errors)).
Proof. destruct errors; simpl; [left | right]; split; congruence. Qed.

(** C6.  The credential check throws exactly when the token or the
    project identifier is not 36 characters long, whatever the
    characters; thrown, the error ends the whole call at once and
    alone.  The last step rejects with the list it is given exactly
    when the list is not empty; and when the preconditions hold the
    call ends as the last step does on the namespace errors followed
    by the application errors. *)
Theorem credentials_and_final_step (this : plugin) :
  (validateCredentials this = Throw (Error credentialsMessage)
   <-> String.length (scwToken this) <> 36 \/ String.length (scwProject this) <> 36)
  /\ (validateCredentials this = Ok tt
      <-> String.length (scwToken this) = 36 /\ String.length (scwProject this) = 36)
  /\ (truthy (servicePath this) = true ->
      String.length (scwToken this) <> 36 \/ String.length (scwProject this) <> 36 ->
      validate this = (svc this, Rejected (Fatal (Error credentialsMessage))))
  /\ (forall errors, checkErrors (Some errors) = Rejected (Errors errors) <-> errors <> [])
  /\ (forall errors, checkErrors (Some errors) = Fulfilled tt <-> errors = [])
  /\ (forall namespaceErrors s all,
        truthy (servicePath this) = true ->
        validateCredentials this = Ok tt ->
        validateEnv (env (svc this)) = Ok namespaceErrors ->
        validateApplications this (Some namespaceErrors) = (s, Ok all) ->
        (exists applicationErrors, all = (namespaceErrors ++ applicationErrors)%list)
        /\ validate this = (s, checkErrors (Some all))).
Proof.
  pose proof (validateCredentials_cases this) as V.
  split; [|split; [|split; [|split; [|split]]]].
  - split; intros H; destruct V as [(T & P & E) | (D & E)];
      try congruence; try assumption; lia.
  - split; intros H; destruct V as [(T & P & E) | (D & E)];
      try congruence; try assumption; try (now split); lia.
  - intros S D. unfold validate, validateServicePath. rewrite S. simpl.
    destruct V as [(T & P & _) | (_ & E)]; [lia | now rewrite E].
  - intros errors.
    destruct (checkErrors_cases errors) as [(-> & E) | (N & E)]; rewrite E;
      split; congruence.
  - intros errors.
    destruct (checkErrors_cases errors) as [(-> & E) | (N & E)]; rewrite E;
      split; congruence.
  - intros namespaceErrors s all S C N A. split.
    + exact (validateApplications_prefix this (Some namespaceErrors) A).
    + unfold validate, validateServicePath, validateNamespace.
      rewrite S, C, N. simpl. now rewrite A.
Qed.

(** ** Functions and containers *)

(** C8.  With no function and no container, [validateApplications]
    leaves the service as it is and adds to the errors it was given
    the one message that a function or container must be defined;
    nothing is said about the default runtime, whatever it is. *)
Theorem validateApplications_empty (this : plugin) (errors : option (list string)) :
  entriesOf (functions (svc this)) = [] ->
  match customSection (svc this) with
  | Some c => entriesOf (containers c) = []
  | None => True
  end ->
  validateApplications this errors
  = (svc this, Ok (currentErrorsOf errors ++ [emptyMessage])%list).
Proof.
  destruct this as [sp tok proj rt [e fs cu]]. simpl.
  intros F C. unfold validateApplications. simpl.
  destruct fs as [fs|]; simpl in F; [subst fs|];
    destruct cu as [[[cs|]]|]; simpl in C; try subst cs; reflexivity.
Qed.

Lemma get_set_same (o : obj) (k : string) (v : value) : get (set o k v) k = v.
Proof.
  induction o as [|[k' v'] rest IH]; simpl.
  - now rewrite String.eqb_refl.
  - destruct (String.eqb k' k) eqn:E; simpl; now rewrite E.
Qed.

Lemma get_set_other (o : obj) (k k' : string) (v : value) :
  k' <> k -> get (set o k v) k' = get o k'.
Proof.
  intros D. induction o as [|[k0 v0] rest IH]; simpl.
  - destruct (String.eqb_spec k k'); [congruence | reflexivity].
  - destruct (String.eqb_spec k0 k) as [->|N]; simpl.
    + destruct (String.eqb_spec k k'); [congruence | reflexivity].
    + destruct (String.eqb k0 k'); [reflexivity | exact IH].
Qed.

Lemma events_defaulted (entity : obj) :
  get (defaultEvents entity) "events" = orEmpty (get entity "events").
Proof. apply get_set_same. Qed.

(** What the callback does with a function it does not skip. *)
Lemma functionStep_checked (this : plugin) (extensions : tableValue)
    (functionName : string) (func : obj) (functionErrors : list string) :
  skipsValidation this func = false ->
  functionStep this extensions functionName func functionErrors
  = (defaultEvents func,
     do triggerErrors <- validateTriggers (orEmpty (get func "events"));
     Ok (functionErrors ++ overrideErrors this func
           ++ handlerErrors extensions functionName func ++ triggerErrors)%list).
Proof.
  intros S. unfold functionStep. rewrite S, events_defaulted.
  f_equal. destruct (validateTriggers _); simpl; [|reflexivity].
  now rewrite <- !app_assoc.
Qed.

(** C4.  A function whose own runtime is golang, or that has none
    while the default runtime is golang, is skipped: the callback
    leaves the function and the errors as they are, whatever its
    handler and events. *)
Theorem golang_skips_checks (this : plugin) (extensions : tableValue)
    (functionName : string) (func : obj) (functionErrors : list string) :
  isGolang (get func "runtime") = true
  \/ (truthy (get func "runtime") = false /\ isGolang (runtime this) = true) ->
  functionStep this extensions functionName func functionErrors
  = (func, Ok functionErrors).
Proof.
  intros H. unfold functionStep, skipsValidation.
  destruct H as [-> | [-> ->]]; [reflexivity|].
  simpl. now rewrite orb_true_r.
Qed.

Lemma absent_not_golang (r : value) :
  readRuntime (toString r) = Absent -> isGolang r = false.
Proof.
  intros A. destruct r; try reflexivity. simpl in *.
  destruct (String.eqb_spec s "golang") as [->|_]; [discriminate | reflexivity].
Qed.

(** For a function that declares a runtime of its own at which the
    table reads [undefined], the callback pushes the
    unsupported-runtime message; the message names the default runtime
    of the service, not the one the function declares, and lists the
    keys of the table. *)
Theorem unsupported_override (this : plugin) (extensions : tableValue)
    (functionName : string) (func : obj) (functionErrors : list string) :
  truthy (get func "runtime") = true ->
  readRuntime (toString (get func "runtime")) = Absent ->
  overrideErrors this func = [runtimeMessage this]
  /\ runtimeMessage this
     = "Runtime " ++ toString (runtime this)
         ++ " is not supported. Function runtime must be one of the following: "
         ++ "node8, node10, node14, python, python3, golang"
  /\ functionStep this extensions functionName func functionErrors
     = (defaultEvents func,
        do triggerErrors <- validateTriggers (orEmpty (get func "events"));
        Ok (functionErrors ++ [runtimeMessage this]
              ++ handlerErrors extensions functionName func ++ triggerErrors)%list).
Proof.
  intros T A.
  assert (O : overrideErrors this func = [runtimeMessage this]).
  { unfold overrideErrors. now rewrite T, A. }
  split; [exact O|]. split; [reflexivity|].
  rewrite functionStep_checked, O; [reflexivity|].
  unfold skipsValidation. now rewrite T, (absent_not_golang _ A).
Qed.

(** A name that [Object.prototype] defines reads as present: no
    message is pushed for such an override. *)
Lemma inherited_override (this : plugin) (func : obj) (k : string) (len : option nat) :
  get func "runtime" = VStr k ->
  lookup RUNTIMES_EXTENSIONS k = None ->
  lookup Object_prototype k = Some len ->
  overrideErrors this func = [].
Proof.
  intros G N P. unfold overrideErrors, readRuntime. rewrite G.
  cbn [toString truthy]. rewrite N, P. now destruct (negb (isEmpty k)).
Qed.

(** ** The handler check *)

Lemma fold_probe (handlerPath : string) (exts : list string) :
  forall found,
    fold_left (probe handlerPath) exts found
    = found || existsb (candidateExists handlerPath) exts.
Proof.
  induction exts as [|ext rest IH]; intros found; simpl.
  - now rewrite orb_false_r.
  - rewrite IH. unfold probe.
    destruct (candidateExists handlerPath ext); simpl;
      [now rewrite orb_true_r | reflexivity].
Qed.


Lemma handlerTry_probes (exts : list string) (functionName h filePath symbol : string) :
  split "." h = [filePath; symbol] ->
  handlerTry (Extensions exts) functionName (VStr h)
  = if existsb (candidateExists filePath) exts
    then Ok tt else Throw (Error "File does not exists").
Proof.
  intros S. unfold handlerTry. rewrite S. simpl. rewrite fold_probe. simpl.
  now destruct (existsb _ exts).
Qed.

Lemma handlerTry_absent (functionName : string) (handler : value) :
  exists e, handlerTry Absent functionName handler = Throw e.
Proof.
  destruct handler; simpl; eauto.
  destruct (Nat.eqb _ 2); simpl; eauto.
Qed.



(** For a function that is not skipped, the callback as
    [validateApplications] runs it, with the extension list bound
    from the default runtime of the service: the handler check reads
    that binding, whatever runtime the function declares, so that
    with a default runtime of the table the check passes exactly
    when a file with one of the default runtime's extensions exists;
    and with a default runtime at which the table reads [undefined]
    the handler message is pushed, whatever the files. *)
Theorem handler_probe_uses_default_runtime (this : plugin)
    (functionName : string) (func : obj) (functionErrors : list string) :
  skipsValidation this func = false ->
  functionStep this (readRuntime (toString (runtime this)))
    functionName func functionErrors
  = (defaultEvents func,
     do triggerErrors <- validateTriggers (orEmpty (get func "events"));
     Ok (functionErrors ++ overrideErrors this func
           ++ handlerErrors (readRuntime (toString (runtime this))) functionName func
           ++ triggerErrors)%list)
  /\ (forall exts h filePath symbol,
        lookup RUNTIMES_EXTENSIONS (toString (runtime this)) = Some exts ->
        get func "handler" = VStr h ->
        split "." h = [filePath; symbol] ->
        (handlerErrors (readRuntime (toString (runtime this))) functionName func = []
         <-> exists ext,
               In ext exts /\ existsSync (resolve (filePath ++ "." ++ ext)) = true))
  /\ (readRuntime (toString (runtime this)) = Absent ->
      handlerErrors (readRuntime (toString (runtime this))) functionName func
      = [handlerMessage functionName (get func "handler")]).
Proof.
  intros S. split; [now apply functionStep_checked | split].
  - intros exts h filePath symbol R G P.
    unfold handlerErrors, readRuntime. rewrite R, G.
    rewrite (handlerTry_probes exts functionName h P).
    destruct (existsb (candidateExists filePath) exts) eqn:X.
    + split; [|reflexivity]. intros _.
      apply existsb_exists in X as (ext & I & X). now exists ext.
    + split; [discriminate|]. intros (ext & I & X').
      assert (existsb (candidateExists filePath) exts = true)
        by (apply existsb_exists; now exists ext).
      congruence.
  - intros A. rewrite A. unfold handlerErrors.
    destruct (handlerTry_absent functionName (get func "handler")) as (e & T).
    now rewrite T.
Qed.

(** ** What validation changes *)

Lemma keysOf_app (A : Type) (a b : list (string * A)) :
  keysOf (a ++ b) = (keysOf a ++ keysOf b)%list.
Proof. apply map_app. Qed.

Lemma lookup_fresh (A : Type) (pre rest : list (string * A)) (k : string) (e : A) :
  ~ In k (keysOf pre) -> lookup (pre ++ (k, e) :: rest) k = Some e.
Proof.
  induction pre as [|[k' e'] pre IH]; simpl; intros F.
  - now rewrite String.eqb_refl.
  - destruct (String.eqb_spec k' k) as [->|_]; [now elim F; left | apply IH; auto].
Qed.

Lemma set_fresh (A : Type) (pre rest : list (string * A)) (k : string) (e e' : A) :
  ~ In k (keysOf pre) ->
  set (pre ++ (k, e) :: rest) k e' = (pre ++ (k, e') :: rest)%list.
Proof.
  induction pre as [|[k0 e0] pre IH]; simpl; intros F.
  - now rewrite String.eqb_refl.
  - destruct (String.eqb_spec k0 k) as [->|_]; [now elim F; left | f_equal; apply IH; auto].
Qed.

(** With distinct names, [forEach] over the names of the entries is
    [walk] over the entries. *)
Lemma forEach_walk (step : string -> obj -> list string -> obj * result (list string))
    (firstRead : string) :
  forall suffix pre errs,
    NoDup (keysOf (pre ++ suffix)) ->
    forEach step firstRead (keysOf suffix) (pre ++ suffix) errs
    = (pre ++ fst (walk step suffix errs), snd (walk step suffix errs))%list.
Proof.
  induction suffix as [|[k e] rest IH]; intros pre errs D; simpl.
  - reflexivity.
  - assert (F : ~ In k (keysOf pre)).
    { rewrite keysOf_app in D. simpl in D. apply NoDup_remove_2 in D.
      intros I. apply D, in_or_app. now left. }
    rewrite lookup_fresh by exact F.
    destruct (step k e errs) as [e' [errs'|x]]; simpl;
      rewrite set_fresh by exact F.
    + replace (pre ++ (k, e') :: rest)%list with ((pre ++ [(k, e')]) ++ rest)%list
        by now rewrite <- app_assoc.
      rewrite IH.
      * destruct (walk step rest errs') as [rest' r']. simpl.
        now rewrite <- app_assoc.
      * rewrite <- app_assoc. simpl.
        rewrite keysOf_app in *. exact D.
    + reflexivity.
Qed.

Lemma entriesKept_refl (f : obj -> obj) (entries : list (string * obj)) :
  Forall2 (entryKept f) entries entries.
Proof.
  induction entries; constructor; [|assumption]. split; [reflexivity | now left].
Qed.

(** When every round leaves its entry as [f] does, a walk leaves
    each entry as it was or as [f] leaves it, and all of them as [f]
    leaves them if no round throws. *)
Lemma walk_kept (step : string -> obj -> list string -> obj * result (list string))
    (f : obj -> obj) :
  (forall name entry errs, fst (step name entry errs) = f entry) ->
  forall entries errs,
    Forall2 (entryKept f) entries (fst (walk step entries errs))
    /\ (forall l, snd (walk step entries errs) = Ok l ->
                  fst (walk step entries errs) = mapEntries f entries).
Proof.
  intros Hf. induction entries as [|[k e] rest IH]; intros errs; simpl.
  - split; [constructor | reflexivity].
  - specialize (Hf k e errs). destruct (step k e errs) as [e' [errs'|x]]; simpl in *.
    + destruct (IH errs') as [K N].
      destruct (walk step rest errs') as [rest' r']. simpl in *. split.
      * constructor; [|assumption]. split; [reflexivity | now right].
      * intros l R. rewrite (N l R). now subst.
    + split; [|discriminate].
      constructor; [|apply entriesKept_refl]. split; [reflexivity | now right].
Qed.

Lemma functionStep_leaves (this : plugin) (extensions : tableValue)
    (functionName : string) (func : obj) (functionErrors : list string) :
  fst (functionStep this extensions functionName func functionErrors)
  = normalizeFunction this func.
Proof.
  unfold functionStep, normalizeFunction. now destruct (skipsValidation this func).
Qed.

Lemma containerStep_leaves (containerName : string) (container : obj)
    (functionErrors : list string) :
  fst (containerStep containerName container functionErrors) = defaultEvents container.
Proof. reflexivity. Qed.

(** The loop over one section of the service. *)
Lemma section_kept (step : string -> obj -> list string -> obj * result (list string))
    (f : obj -> obj) (firstRead : string) (o : option (list (string * obj)))
    (errs : list string) :
  (forall name entry errs, fst (step name entry errs) = f entry) ->
  distinctNames o ->
  entriesKept f o
    (if nonEmpty o
     then Some (fst (forEach step firstRead (keysOf (entriesOf o)) (entriesOf o) errs))
     else o)
  /\ (forall l,
        (if nonEmpty o
         then snd (forEach step firstRead (keysOf (entriesOf o)) (entriesOf o) errs)
         else Ok l) = Ok l ->
        (if nonEmpty o
         then Some (fst (forEach step firstRead (keysOf (entriesOf o)) (entriesOf o) errs))
         else o) = option_map (mapEntries f) o).
Proof.
  intros Hf D. destruct o as [entries|]; simpl; [|now split].
  unfold distinctNames in D. simpl in D.
  destruct entries as [|entry rest]; [simpl; split; [constructor | reflexivity]|].
  change (nonEmpty (Some (entry :: rest))) with true. cbn iota. cbn [entriesOf].
  pose proof (forEach_walk step firstRead (entry :: rest) [] errs D) as W.
  cbn [app] in W. rewrite W. cbn [fst snd option_map].
  destruct (walk_kept step f Hf (entry :: rest) errs) as [K N]. split.
  - exact K.
  - intros l R. now rewrite (N l R).
Qed.

Lemma validateApplications_service (this : plugin) (errors : option (list string)) :
  wellFormed (svc this) ->
  serviceKept this (svc this) (fst (validateApplications this errors))
  /\ (forall l, snd (validateApplications this errors) = Ok l ->
                fst (validateApplications this errors) = normalizeService this (svc this)).
Proof.
  intros [DF DC]. unfold validateApplications.
  set (extensions := readRuntime (toString (runtime this))).
  set (errs0 := if isAbsent extensions then [runtimeMessage this] else []).
  destruct (@section_kept (functionStep this extensions) (normalizeFunction this)
              "runtime" (functions (svc this)) errs0
              (functionStep_leaves this extensions) DF) as [KF NF].
  set (containers_ := match customSection (svc this) with
                      | Some c => containers c
                      | None => Some []
                      end) in *.
  assert (DC' : distinctNames containers_).
  { unfold containers_. destruct (customSection (svc this)); [exact DC | constructor]. }
  unfold serviceKept, normalizeService.
  destruct (nonEmpty (functions (svc this))).
  - destruct (forEach (functionStep this extensions) "runtime" _ _ errs0) as [fs [e1|x]];
      cbn [fst snd] in *.
    + destruct (@section_kept containerStep defaultEvents "events" containers_ e1
                  containerStep_leaves DC') as [KC NC].
      destruct (nonEmpty containers_).
      * destruct (forEach containerStep "events" _ _ e1) as [cs [e2|x]];
          cbn [fst snd env functions customSection] in *.
        -- split.
           ++ split; [reflexivity|]. split; [exact KF|].
              unfold containers_ in *. destruct (customSection (svc this)); [exact KC | exact I].
           ++ intros l _. rewrite (NF e1 eq_refl). f_equal.
              unfold containers_ in *. destruct (customSection (svc this)) as [c|];
                [|reflexivity].
              simpl. now rewrite (NC e2 eq_refl).
        -- split; [|discriminate].
           split; [reflexivity|]. split; [exact KF|].
           unfold containers_ in *. destruct (customSection (svc this)); [exact KC | exact I].
      * cbn [fst snd env functions customSection] in *. split.
        -- split; [reflexivity|]. split; [exact KF|].
           unfold containers_ in *. destruct (customSection (svc this)); [exact KC | exact I].
        -- intros l _. rewrite (NF e1 eq_refl). f_equal.
           unfold containers_ in *. destruct (customSection (svc this)) as [c|];
             [|reflexivity].
           simpl. now rewrite <- (NC e1 eq_refl).
    + cbn [fst snd env functions customSection]. split; [|discriminate].
      split; [reflexivity|]. split; [exact KF|].
      destruct (customSection (svc this)) as [c|]; [|exact I].
      destruct (containers c); simpl; [apply entriesKept_refl | exact I].
  - destruct (@section_kept containerStep defaultEvents "events" containers_ []
                containerStep_leaves DC') as [KC NC].
    destruct (nonEmpty containers_).
    + destruct (forEach containerStep "events" _ _ []) as [cs [e2|x]];
        cbn [fst snd env functions customSection] in *.
      * split.
        -- split; [reflexivity|]. split; [exact KF|].
           unfold containers_ in *. destruct (customSection (svc this)); [exact KC | exact I].
        -- intros l _. rewrite <- (NF [] eq_refl). f_equal.
           unfold containers_ in *. destruct (customSection (svc this)) as [c|];
             [|reflexivity].
           simpl. now rewrite (NC e2 eq_refl).
      * split; [|discriminate].
        split; [reflexivity|]. split; [exact KF|].
        unfold containers_ in *. destruct (customSection (svc this)); [exact KC | exact I].
    + cbn [fst snd env functions customSection] in *. split.
      * split; [reflexivity|]. split; [exact KF|].
        unfold containers_ in *. destruct (customSection (svc this)); [exact KC | exact I].
      * intros l _. rewrite <- (NF [] eq_refl). f_equal.
        unfold containers_ in *. destruct (customSection (svc this)) as [c|];
          [|reflexivity].
        simpl. now rewrite <- (NC [] eq_refl).
Qed.

Lemma serviceKept_refl (this : plugin) (s : service) : serviceKept this s s.
Proof.
  split; [reflexivity|]. split.
  - destruct (functions s); simpl; [apply entriesKept_refl | exact I].
  - destruct (customSection s) as [c|]; [|exact I].
    destruct (containers c); simpl; [apply entriesKept_refl | exact I].
Qed.

Lemma set_get_truthy (o : obj) (k : string) :
  truthy (get o k) = true -> set o k (get o k) = o.
Proof.
  induction o as [|[k' v'] rest IH]; simpl; intros T.
  - discriminate.
  - destruct (String.eqb k' k); [reflexivity|]. now rewrite IH.
Qed.

(** C9, amended.  Whatever way the pipeline ends, the service
    differs from what it was at most in this: a container, or a
    function that is not skipped as golang, may have had its
    [events] defaulted.  When the pipeline reaches its last step,
    every container and every such function has.  Defaulting leaves
    an entity with truthy [events] as it is and otherwise sets
    [events] to the empty sequence, touching no other property; a
    function skipped as golang is left as it is. *)
Theorem validation_defaults_events_only (this : plugin) :
  wellFormed (svc this) ->
  serviceKept this (svc this) (fst (validate this))
  /\ (forall errors,
        snd (validate this) = Fulfilled tt
        \/ snd (validate this) = Rejected (Errors errors) ->
        fst (validate this) = normalizeService this (svc this))
  /\ (forall entity,
        truthy (get entity "events") = true -> defaultEvents entity = entity)
  /\ (forall entity,
        truthy (get entity "events") = false ->
        get (defaultEvents entity) "events" = VArr []
        /\ forall k, k <> "events" -> get (defaultEvents entity) k = get entity k)
  /\ (forall func,
        skipsValidation this func = true -> normalizeFunction this func = func)
  /\ (forall func,
        skipsValidation this func = false ->
        normalizeFunction this func = defaultEvents func).
Proof.
  intros W. split; [|split; [|split; [|split; [|split]]]].
  - unfold validate.
    destruct (validateServicePath this); [|apply serviceKept_refl].
    destruct (validateCredentials this); [|apply serviceKept_refl].
    destruct (validateNamespace this None) as [errors1|]; [|apply serviceKept_refl].
    destruct (validateApplications_service this (Some errors1) W) as [K _].
    destruct (validateApplications this (Some errors1)) as [s [errors2|x]]; exact K.
  - intros errors. unfold validate.
    destruct (validateServicePath this); [|intros [H|H]; discriminate].
    destruct (validateCredentials this); [|intros [H|H]; discriminate].
    destruct (validateNamespace this None) as [errors1|]; [|intros [H|H]; discriminate].
    destruct (validateApplications_service this (Some errors1) W) as [_ N].
    destruct (validateApplications this (Some errors1)) as [s [errors2|x]].
    + intros _. exact (N errors2 eq_refl).
    + intros [H|H]; discriminate.
  - intros entity T. unfold defaultEvents, orEmpty. rewrite T.
    now apply set_get_truthy.
  - intros entity F. unfold defaultEvents, orEmpty. rewrite F. split.
    + apply get_set_same.
    + intros k D. now apply get_set_other.
  - intros func S. unfold normalizeFunction. now rewrite S.
  - intros func S. unfold normalizeFunction. now rewrite S.
Qed.

(* ================================================================= *)
(** * Further properties *)

(** ** Splitting and joining *)

Lemma split_cons (sep : ascii) (s : string) :
  exists w ws, split sep s = w :: ws.
Proof.
  destruct s as [|c t]; simpl; [eauto|].
  destruct (Ascii.eqb c sep); [eauto|]. destruct (split sep t); eauto.
Qed.

(** Joining the segments of a string with the separator gives the
    string back. *)
Theorem split_join (sep : ascii) (s : string) :
  join (String sep EmptyString) (split sep s) = s.
Proof.
  unfold join. induction s as [|c t IH]; simpl; [reflexivity|].
  destruct (split_cons sep t) as (w & ws & E). rewrite E in *.
  destruct (Ascii.eqb_spec c sep) as [->|_].
  - change (String.concat (String sep EmptyString) (EmptyString :: w :: ws))
      with (String sep (String.concat (String sep EmptyString) (w :: ws))).
    now rewrite IH.
  - destruct ws as [|w' ws']; simpl in *; now rewrite IH.
Qed.

(** A string has one segment more than it has separators. *)
Theorem split_length (sep : ascii) (s : string) :
  List.length (split sep s) = S (occurrences sep s).
Proof.
  induction s as [|c t IH]; simpl; [reflexivity|].
  destruct (Ascii.eqb c sep); simpl; [now rewrite IH|].
  destruct (split_cons sep t) as (w & ws & E). now rewrite E in *.
Qed.

Lemma split_segments (sep : ascii) (s : string) :
  Forall (fun w => occurrences sep w = 0) (split sep s).
Proof.
  induction s as [|c t IH]; simpl; [repeat constructor|].
  destruct (Ascii.eqb c sep) eqn:E; [now constructor|].
  destruct (split sep t) as [|w ws]; [repeat constructor; simpl; now rewrite E|].
  inversion IH; subst. constructor; [simpl; now rewrite E | assumption].
Qed.

(** The format check of the handler counts dots: the handler passes
    it exactly when it has one dot, and then the path probed is the
    text before the dot and holds no dot. *)
Theorem handler_format (extensions : tableValue) (functionName h : string) :
  (handlerTry extensions functionName (VStr h)
   = Throw (Error ("Handler is malformatted for " ++ functionName
                     ++ ": handler should be path/to/file.functionInsideFile"))
   <-> occurrences "." h <> 1)
  /\ (occurrences "." h = 1 ->
      exists filePath symbol,
        split "." h = [filePath; symbol]
        /\ h = filePath ++ "." ++ symbol
        /\ occurrences "." filePath = 0
        /\ occurrences "." symbol = 0).
Proof.
  pose proof (split_length "." h) as L. split.
  - unfold handlerTry.
    destruct (Nat.eqb_spec (List.length (split "." h)) 2) as [E|N]; simpl.
    + split; [|intros D; exfalso; apply D; lia].
      destruct extensions as [exts|[n|]|]; simpl;
        try (intros X; discriminate X);
        destruct (fold_left _ _ false); simpl; intros X; discriminate X.
    + split; [intros _; lia | reflexivity].
  - intros O. rewrite O in L.
    pose proof (split_join "." h) as J. pose proof (split_segments "." h) as F.
    destruct (split "." h) as [|p [|sym [|x rest]]]; try discriminate L.
    exists p, sym. inversion F as [|? ? Fp F']; subst. inversion F' as [|? ? Fs _]; subst.
    split; [reflexivity|]. split; [reflexivity|]. split; assumption.
Qed.

(** ** The shape of an accepted rate *)

Lemma length_append (a b : string) :
  String.length (a ++ b) = String.length a + String.length b.
Proof. induction a as [|x a IH]; simpl; [reflexivity | now rewrite IH]. Qed.

Lemma allChars_append (ok : ascii -> bool) (a b : string) :
  allChars ok (a ++ b) = allChars ok a && allChars ok b.
Proof.
  induction a as [|x a IH]; simpl; [reflexivity|]. now rewrite IH, andb_assoc.
Qed.

Lemma lang_length (r : regex) :
  forall s, lang r s -> minLength r <= String.length s <= maxLength r.
Proof.
  induction r as [c | lo hi | r1 IH1 r2 IH2 | r1 IH1 r2 IH2]; intros s; simpl.
  - intros ->. simpl. lia.
  - intros (d & -> & _). simpl. lia.
  - intros [L|L]; [apply IH1 in L | apply IH2 in L]; lia.
  - intros (u & v & -> & L1 & L2). apply IH1 in L1. apply IH2 in L2.
    rewrite length_append. lia.
Qed.

Lemma lang_chars (ok : ascii -> bool) (r : regex) :
  leavesWithin ok r = true -> forall s, lang r s -> allChars ok s = true.
Proof.
  induction r as [c | lo hi | r1 IH1 r2 IH2 | r1 IH1 r2 IH2]; simpl; intros W s.
  - intros ->. simpl. now rewrite W.
  - intros (d & -> & R). simpl. rewrite andb_true_r.
    unfold inRange in R. apply andb_true_iff in R as [R1 R2].
    apply Nat.leb_le in R1, R2. rewrite forallb_forall in W.
    rewrite <- (ascii_nat_embedding d). apply W, in_seq. lia.
  - apply andb_true_iff in W as [W1 W2]. intros [L|L]; auto.
  - apply andb_true_iff in W as [W1 W2]. intros (u & v & -> & L1 & L2).
    rewrite allChars_append, (IH1 W1 u L1), (IH2 W2 v L2). reflexivity.
Qed.

Lemma occurrences_append (c : ascii) (a b : string) :
  occurrences c (a ++ b) = occurrences c a + occurrences c b.
Proof.
  induction a as [|x a IH]; simpl; [reflexivity|].
  destruct (Ascii.eqb x c); simpl; now rewrite IH.
Qed.

Lemma lang_count (c : ascii) (r : regex) :
  forall s, lang r s -> minCount c r <= occurrences c s <= maxCount c r.
Proof.
  induction r as [d | lo hi | r1 IH1 r2 IH2 | r1 IH1 r2 IH2]; intros s; simpl.
  - intros ->. simpl. destruct (Ascii.eqb d c); lia.
  - intros (d & -> & R). simpl. destruct (Ascii.eqb_spec d c) as [->|_].
    + rewrite R. lia.
    + destruct (inRange lo hi c); lia.
  - intros [L|L]; [apply IH1 in L | apply IH2 in L]; lia.
  - intros (u & v & -> & L1 & L2). apply IH1 in L1. apply IH2 in L2.
    rewrite occurrences_append. lia.
Qed.

(** A rate the schedule validator accepts is, as a string, 9 to 23
    characters long, made of digits, stars, slashes and spaces only,
    with four spaces: names, ranges and lists of values are not cron
    expressions here. *)
Theorem accepted_rate_shape (payload rate : value) :
  getProp payload "rate" = Ok rate ->
  schedule payload = Ok tt ->
  9 <= String.length (toString rate) <= 23
  /\ allChars cronChar (toString rate) = true
  /\ occurrences " " (toString rate) = 4.
Proof.
  intros G S. rewrite (schedule_eq _ G) in S.
  destruct (test Cron.cronScheduleRegex (toString rate)) eqn:T; [|discriminate].
  apply test_spec in T. split; [|split].
  - exact (lang_length Cron.cronScheduleRegex _ T).
  - exact (lang_chars cronChar Cron.cronScheduleRegex eq_refl _ T).
  - pose proof (lang_count " " Cron.cronScheduleRegex _ T) as C.
    change (minCount " " Cron.cronScheduleRegex) with 4 in C.
    change (maxCount " " Cron.cronScheduleRegex) with 4 in C. lia.
Qed.

Lemma digits_no_space (d : Decimal.uint) :
  occurrences " " (NilEmpty.string_of_uint d) = 0.
Proof. induction d; simpl; assumption || reflexivity. Qed.

Lemma number_no_space (n : Z) : occurrences " " (toString (VNum n)) = 0.
Proof.
  simpl. destruct (Z.to_int n) as [d|d]; simpl.
  - destruct d; try reflexivity; apply (digits_no_space (_ d)) || apply digits_no_space.
  - destruct d; try reflexivity; apply (digits_no_space (_ d)) || apply digits_no_space.
Qed.

Lemma accepted_rate_aux (payload rate : value) :
  getProp payload "rate" = Ok rate ->
  schedule payload = Ok tt ->
  test Cron.cronScheduleRegex (toString rate) = true
  /\ occurrences " " (toString rate) = 4.
Proof.
  intros G S. rewrite (schedule_eq _ G) in S.
  destruct (test Cron.cronScheduleRegex (toString rate)) eqn:T; [|discriminate].
  split; [reflexivity|]. apply test_spec in T.
  pose proof (lang_count " " Cron.cronScheduleRegex _ T) as C.
  change (minCount " " Cron.cronScheduleRegex) with 4 in C.
  change (maxCount " " Cron.cronScheduleRegex) with 4 in C. lia.
Qed.

(** Only a string, or an array that prints as one, can be a rate the
    schedule validator accepts: a number, a boolean or a mapping never
    is, nor is a missing rate. *)
Theorem accepted_rate_kind (payload rate : value) :
  getProp payload "rate" = Ok rate ->
  schedule payload = Ok tt ->
  (exists s, rate = VStr s) \/ (exists elems, rate = VArr elems).
Proof.
  intros G S.
  destruct (@accepted_rate_aux payload rate G S) as [T C].
  destruct rate as [ | | b | n | s | l | o]; eauto; exfalso.
  - vm_compute in T. discriminate T.
  - vm_compute in T. discriminate T.
  - destruct b; vm_compute in T; discriminate T.
  - rewrite number_no_space in C. discriminate C.
  - vm_compute in T. discriminate T.
Qed.

(** No text with a comma in it is a cron expression. *)
Lemma comma_not_cron (a b : string) :
  test Cron.cronScheduleRegex (a ++ "," ++ b) = false.
Proof.
  destruct (test Cron.cronScheduleRegex (a ++ "," ++ b)) eqn:T; [|reflexivity].
  apply test_spec in T.
  pose proof (lang_chars cronChar Cron.cronScheduleRegex eq_refl _ T) as C.
  rewrite allChars_append in C. simpl in C. rewrite andb_false_r in C.
  discriminate C.
Qed.

(** A rate that is not printable is none the schedule validator
    accepts: where the engine throws or prints another numeral,
    [toString] gives no cron expression, so that [schedule] fails on
    the rate as the code does. *)
Lemma unprintable_not_cron :
  forall rate : value,
    printable rate = false -> test Cron.cronScheduleRegex (toString rate) = false.
Proof.
  fix IH 1. intros [ | | b | n | s | l | o]; try (intros P; discriminate P).
  - intros _.
    destruct (test Cron.cronScheduleRegex (toString (VNum n))) eqn:T; [|reflexivity].
    apply test_spec in T.
    pose proof (lang_count " " Cron.cronScheduleRegex _ T) as C.
    change (minCount " " Cron.cronScheduleRegex) with 4 in C.
    rewrite number_no_space in C. lia.
  - destruct l as [|x [|y rest]].
    + intros P. discriminate P.
    + intros P. simpl in P. rewrite andb_true_r in P. specialize (IH x P).
      destruct x; try discriminate P; exact IH.
    + intros _.
      exact (comma_not_cron
               (match x with VUndefined | VNull => EmptyString | _ => toString x end)
               (toString (VArr (y :: rest)))).
  - intros _. reflexivity.
Qed.

(** ** Triggers, further *)

(** The errors a round appends do not depend on those it is given. *)
Lemma triggerStep_acc (accumulator : list string) (trigger : value) :
  triggerStep accumulator trigger
  = do errs <- triggerStep [] trigger; Ok (accumulator ++ errs)%list.
Proof.
  unfold triggerStep. destruct (Object_keys trigger) as [keys|e]; simpl; [|reflexivity].
  destruct (negb (Nat.eqb (List.length keys) 1)); simpl; [reflexivity|].
  match goal with |- context [if ?c then _ else _] => destruct c end;
    simpl; [reflexivity|].
  match goal with |- context [match ?a with Ok _ => _ | Throw _ => _ end] =>
    destruct a as [u|x] end; simpl; [now rewrite app_nil_r | reflexivity].
Qed.

Lemma reduce_acc (triggers : list value) :
  forall accumulator,
    reduce triggerStep triggers accumulator
    = do errs <- reduce triggerStep triggers []; Ok (accumulator ++ errs)%list.
Proof.
  induction triggers as [|t rest IH]; intros acc; simpl.
  - now rewrite app_nil_r.
  - rewrite (triggerStep_acc acc t).
    destruct (triggerStep [] t) as [e|x]; simpl; [|reflexivity].
    rewrite (IH (acc ++ e)%list), (IH e).
    destruct (reduce triggerStep rest []) as [r|x]; simpl; [|reflexivity].
    now rewrite app_assoc.
Qed.

Lemma reduce_app (A B : Type) (f : A -> B -> result A) (l1 l2 : list B) :
  forall acc, reduce f (l1 ++ l2) acc = do x <- reduce f l1 acc; reduce f l2 x.
Proof.
  induction l1 as [|b l1 IH]; intros acc; simpl; [reflexivity|].
  destruct (f acc b); simpl; [apply IH | reflexivity].
Qed.

(** Validating two sequences of triggers one after the other is
    validating each: the errors of the first, then those of the
    second, and the first throw if one of them throws. *)
Theorem validateTriggers_app (first second : list value) :
  validateTriggers (VArr (first ++ second))
  = do errs1 <- validateTriggers (VArr first);
    do errs2 <- validateTriggers (VArr second);
    Ok (errs1 ++ errs2)%list.
Proof.
  simpl. rewrite reduce_app.
  destruct (reduce triggerStep first []) as [e1|x]; simpl; [|reflexivity].
  apply reduce_acc.
Qed.

Lemma keys_of_valid (trigger : value) (keys : list string) :
  validSchedule trigger -> Object_keys trigger = Ok keys -> keys = ["schedule"].
Proof. intros (payload & K & _) K'. congruence. Qed.

(** A trigger contributes nothing exactly when it is a valid
    schedule, and never more than one message. *)
Lemma verdict_cases (trigger : value) (errs : list string) :
  triggerVerdict trigger errs ->
  (errs = [] <-> validSchedule trigger) /\ List.length errs <= 1.
Proof.
  intros V. split; [|destruct V; simpl; lia].
  destruct V as [keys K L | kind K D | payload e K G S | payload K G S].
  - split; [discriminate|]. intros W. apply (keys_of_valid W) in K. now subst.
  - split; [discriminate|]. intros W. apply (keys_of_valid W) in K.
    injection K as ->. now elim D.
  - split; [discriminate|]. intros (payload' & _ & G' & S'). congruence.
  - split; [|reflexivity]. intros _. now exists payload.
Qed.

Lemma verdicts_empty (triggers : list value) (per : list (list string)) :
  Forall2 triggerVerdict triggers per ->
  (List.concat per = [] <-> Forall validSchedule triggers)
  /\ List.length (List.concat per) <= List.length triggers.
Proof.
  induction 1 as [|t errs rest per V _ [IH1 IH2]]; simpl.
  - split; [split; [constructor | reflexivity] | lia].
  - destruct (verdict_cases V) as [E L]. split.
    + split.
      * intros C. apply app_eq_nil in C as [C1 C2].
        constructor; [now apply E | now apply IH1].
      * intros F. inversion F as [|? ? Ft Frest]; subst.
        apply E in Ft. apply IH1 in Frest. now rewrite Ft, Frest.
    + rewrite length_app. lia.
Qed.

(** A sequence of triggers passes exactly when each of them is a
    schedule that the schedule validator accepts. *)
Theorem validateTriggers_accepts (triggers : list value) :
  Forall (fun t => nullish t = false) triggers ->
  (validateTriggers (VArr triggers) = Ok [] <-> Forall validSchedule triggers).
Proof.
  intros N. destruct (reduce_triggers N []) as (per & R & F).
  destruct (verdicts_empty F) as [E _]. simpl in *. rewrite R. split.
  - intros [= C]. now apply E.
  - intros V. apply E in V. now rewrite V.
Qed.

(** A sequence of triggers yields at most one message per trigger. *)
Theorem validateTriggers_count (triggers : list value) :
  Forall (fun t => nullish t = false) triggers ->
  exists errs,
    validateTriggers (VArr triggers) = Ok errs
    /\ List.length errs <= List.length triggers.
Proof.
  intros N. destruct (reduce_triggers N []) as (per & R & F).
  destruct (verdicts_empty F) as [_ L]. exists (List.concat per). split; assumption.
Qed.

Lemma triggerStep_throws (accumulator : list string) (trigger : value) (e : exn) :
  triggerStep accumulator trigger = Throw e -> exists site, e = TypeError site.
Proof.
  unfold triggerStep. destruct trigger; simpl; try (intros [= <-]; eauto);
    repeat match goal with
      | |- context [if ?c then _ else _] => destruct c; simpl
      | |- context [match ?a with Ok _ => _ | Throw _ => _ end] => destruct a; simpl
      end; discriminate.
Qed.

Lemma validateTriggers_throws (triggers : value) (e : exn) :
  validateTriggers triggers = Throw e -> exists site, e = TypeError site.
Proof.
  destruct triggers as [ | | b | n | s | l | o]; simpl;
    try (intros [= <-]; eauto).
  generalize (@nil string). induction l as [|t rest IH]; intros acc; simpl.
  - discriminate.
  - destruct (triggerStep acc t) as [acc'|x] eqn:T; simpl.
    + apply IH.
    + intros [= <-]. exact (triggerStep_throws acc t T).
Qed.

(** ** The report of the applications phase *)

Lemma clean_returns (entity : obj) :
  cleanEvents entity ->
  validateTriggers (orEmpty (get entity "events")) = Ok (triggerErrorsOf entity).
Proof.
  intros (l & E & N). unfold triggerErrorsOf. rewrite E.
  assert (N' : Forall (fun t => nullish t = false) l)
    by (eapply Forall_impl; [|exact N]; now intros t [H _]).
  destruct (reduce_triggers N' []) as (per & R & _). simpl in *. now rewrite R.
Qed.

Lemma functionStep_errors (this : plugin) (extensions : tableValue)
    (entry : string * obj) (errs : list string) :
  (skipsValidation this (snd entry) = false -> cleanEvents (snd entry)) ->
  snd (functionStep this extensions (fst entry) (snd entry) errs)
  = Ok (errs ++ functionErrorsOf this extensions entry)%list.
Proof.
  intros C. unfold functionErrorsOf.
  destruct (skipsValidation this (snd entry)) eqn:S.
  - unfold functionStep. rewrite S. simpl. now rewrite app_nil_r.
  - rewrite functionStep_checked by exact S. simpl.
    now rewrite (clean_returns (C eq_refl)).
Qed.

Lemma containerStep_errors (entry : string * obj) (errs : list string) :
  cleanEvents (snd entry) ->
  snd (containerStep (fst entry) (snd entry) errs)
  = Ok (errs ++ triggerErrorsOf (snd entry))%list.
Proof.
  intros C. unfold containerStep. simpl.
  now rewrite events_defaulted, (clean_returns C).
Qed.

Lemma walk_errors (step : string -> obj -> list string -> obj * result (list string))
    (g : string * obj -> list string) (entries : list (string * obj)) :
  (forall entry, In entry entries ->
     forall errs, snd (step (fst entry) (snd entry) errs) = Ok (errs ++ g entry)%list) ->
  forall errs, snd (walk step entries errs) = Ok (errs ++ flat_map g entries)%list.
Proof.
  induction entries as [|[n e] rest IH]; intros H errs; simpl.
  - now rewrite app_nil_r.
  - pose proof (H (n, e) (or_introl eq_refl) errs) as Hs. simpl in Hs.
    destruct (step n e errs) as [e' r]. simpl in Hs. subst r.
    specialize (IH (fun entry I => H entry (or_intror I)) (errs ++ g (n, e))%list).
    destruct (walk step rest (errs ++ g (n, e))%list) as [rest' r']. simpl in *.
    now rewrite IH, app_assoc.
Qed.

Lemma nonEmpty_false (o : option (list (string * obj))) :
  nonEmpty o = false -> entriesOf o = [].
Proof. destruct o as [[|entry rest]|]; simpl; [reflexivity | discriminate | reflexivity]. Qed.

Lemma nonEmpty_true (o : option (list (string * obj))) :
  nonEmpty o = true -> exists entry rest, entriesOf o = entry :: rest.
Proof. destruct o as [[|entry rest]|]; simpl; try discriminate. eauto. Qed.

(** One loop of [validateApplications], on clean entries. *)
Lemma loop_errors (step : string -> obj -> list string -> obj * result (list string))
    (g : string * obj -> list string) (firstRead : string)
    (o : option (list (string * obj))) (errs : list string) :
  distinctNames o ->
  (forall entry, In entry (entriesOf o) ->
     forall errs, snd (step (fst entry) (snd entry) errs) = Ok (errs ++ g entry)%list) ->
  snd (forEach step firstRead (keysOf (entriesOf o)) (entriesOf o) errs)
  = Ok (errs ++ flat_map g (entriesOf o))%list.
Proof.
  intros D H.
  pose proof (forEach_walk step firstRead (entriesOf o) [] errs D) as W.
  cbn [app] in W. rewrite W. cbn [snd]. now apply walk_errors.
Qed.

Lemma containers_entries (s : service) :
  entriesOf (match customSection s with
             | Some c => containers c
             | None => Some []
             end) = containersOf s.
Proof. unfold containersOf. now destruct (customSection s). Qed.

(** The errors of [validateApplications] on clean entries, in the
    order they are pushed. *)
Lemma applications_report (this : plugin) (errors : option (list string)) :
  wellFormed (svc this) ->
  (forall entry, In entry (entriesOf (functions (svc this))) ->
     skipsValidation this (snd entry) = false -> cleanEvents (snd entry)) ->
  (forall entry, In entry (containersOf (svc this)) -> cleanEvents (snd entry)) ->
  snd (validateApplications this errors)
  = Ok (currentErrorsOf errors
          ++ defaultRuntimeErrors this
          ++ flat_map (functionErrorsOf this (readRuntime (toString (runtime this))))
               (entriesOf (functions (svc this)))
          ++ flat_map (fun entry => triggerErrorsOf (snd entry)) (containersOf (svc this))
          ++ emptyErrors (svc this))%list.
Proof.
  intros [DF DC] CF CC. unfold validateApplications, defaultRuntimeErrors, emptyErrors.
  set (extensions := readRuntime (toString (runtime this))).
  set (errs0 := if isAbsent extensions then [runtimeMessage this] else []).
  set (containers_ := match customSection (svc this) with
                      | Some c => containers c
                      | None => Some []
                      end).
  assert (DC' : distinctNames containers_).
  { unfold containers_. destruct (customSection (svc this)); [exact DC | constructor]. }
  assert (EC : entriesOf containers_ = containersOf (svc this))
    by apply containers_entries.
  assert (HC : forall errs,
             snd (forEach containerStep "events" (keysOf (entriesOf containers_))
                    (entriesOf containers_) errs)
             = Ok (errs ++ flat_map (fun entry => triggerErrorsOf (snd entry))
                             (containersOf (svc this)))%list).
  { intros errs. rewrite <- EC. apply loop_errors; [exact DC'|].
    intros entry I errs'. apply containerStep_errors, CC. now rewrite <- EC. }
  pose proof (@loop_errors (functionStep this extensions)
                (functionErrorsOf this extensions)
                "runtime" (functions (svc this)) errs0 DF
                (fun entry I errs =>
                   @functionStep_errors this extensions entry errs (CF entry I))) as HF.
  destruct (nonEmpty (functions (svc this))) eqn:NF.
  - destruct (nonEmpty_true _ NF) as (fentry & frest & EF).
    destruct (forEach (functionStep this extensions) "runtime" _ _ errs0) as [fs r1].
    cbn [snd] in HF. subst r1. rewrite EF in *.
    destruct (nonEmpty containers_) eqn:NC.
    + destruct (nonEmpty_true _ NC) as (centry & crest & EC').
      specialize (HC (errs0 ++ flat_map (functionErrorsOf this extensions)
                                (fentry :: frest))%list).
      destruct (forEach containerStep "events" _ _ _) as [cs r2].
      cbn [snd] in HC. subst r2. cbn [snd].
      rewrite <- EC, EC'. cbn [List.length keysOf map Nat.eqb andb].
      f_equal. rewrite app_nil_r. now rewrite <- !app_assoc.
    + apply nonEmpty_false in NC. rewrite NC in EC. rewrite <- EC.
      cbn [snd List.length keysOf map Nat.eqb andb flat_map].
      f_equal. now rewrite !app_nil_r.
  - apply nonEmpty_false in NF. rewrite NF in *. cbn [flat_map].
    destruct (nonEmpty containers_) eqn:NC.
    + destruct (nonEmpty_true _ NC) as (centry & crest & EC').
      specialize (HC []).
      destruct (forEach containerStep "events" _ _ _) as [cs r2].
      cbn [snd] in HC. subst r2. cbn [snd].
      rewrite <- EC, EC'. cbn [List.length keysOf map Nat.eqb andb app].
      f_equal. now rewrite app_nil_r.
    + apply nonEmpty_false in NC. rewrite NC in EC. rewrite <- EC.
      cbn [snd List.length keysOf map Nat.eqb andb flat_map app]. reflexivity.
Qed.

(** The outcome of [validateApplications], loop after loop. *)
Lemma applications_outcome (this : plugin) (errors : option (list string)) :
  wellFormed (svc this) ->
  snd (validateApplications this errors)
  = do errs1 <- snd (walk (functionStep this (readRuntime (toString (runtime this))))
                       (entriesOf (functions (svc this))) (defaultRuntimeErrors this));
    do errs2 <- snd (walk containerStep (containersOf (svc this)) errs1);
    Ok (currentErrorsOf errors ++ errs2 ++ emptyErrors (svc this))%list.
Proof.
  intros [DF DC]. unfold validateApplications, defaultRuntimeErrors, emptyErrors.
  set (extensions := readRuntime (toString (runtime this))).
  set (errs0 := if isAbsent extensions then [runtimeMessage this] else []).
  set (containers_ := match customSection (svc this) with
                      | Some c => containers c
                      | None => Some []
                      end).
  assert (DC' : distinctNames containers_).
  { unfold containers_. destruct (customSection (svc this)); [exact DC | constructor]. }
  assert (EC : entriesOf containers_ = containersOf (svc this))
    by apply containers_entries.
  assert (HC : forall errs,
             snd (forEach containerStep "events" (keysOf (entriesOf containers_))
                    (entriesOf containers_) errs)
             = snd (walk containerStep (containersOf (svc this)) errs)).
  { intros errs. rewrite <- EC.
    pose proof (forEach_walk containerStep "events" (entriesOf containers_) [] errs DC') as W.
    cbn [app] in W. now rewrite W. }
  assert (HF : snd (forEach (functionStep this extensions) "runtime"
                      (keysOf (entriesOf (functions (svc this))))
                      (entriesOf (functions (svc this))) errs0)
               = snd (walk (functionStep this extensions)
                        (entriesOf (functions (svc this))) errs0)).
  { pose proof (forEach_walk (functionStep this extensions) "runtime"
                  (entriesOf (functions (svc this))) [] errs0 DF) as W.
    cbn [app] in W. now rewrite W. }
  destruct (nonEmpty (functions (svc this))) eqn:NF.
  - destruct (nonEmpty_true _ NF) as (fentry & frest & EF).
    rewrite <- HF.
    destruct (forEach (functionStep this extensions) "runtime" _ _ errs0) as [fs [e1|x]];
      cbn [snd bind]; [|reflexivity].
    rewrite EF. rewrite <- HC.
    destruct (nonEmpty containers_) eqn:NC.
    + destruct (nonEmpty_true _ NC) as (centry & crest & EC').
      destruct (forEach containerStep "events" _ _ e1) as [cs [e2|x]];
        cbn [snd bind]; [|reflexivity].
      try rewrite <- EC; try rewrite EC'. cbn [List.length keysOf map Nat.eqb andb].
      now rewrite app_nil_r.
    + apply nonEmpty_false in NC. rewrite NC in *. try rewrite <- EC.
      cbn [snd bind forEach keysOf map List.length Nat.eqb andb].
      now rewrite app_nil_r.
  - apply nonEmpty_false in NF. rewrite NF. cbn [walk snd bind]. rewrite <- HC.
    destruct (nonEmpty containers_) eqn:NC.
    + destruct (nonEmpty_true _ NC) as (centry & crest & EC').
      destruct (forEach containerStep "events" _ _ []) as [cs [e2|x]];
        cbn [snd bind]; [|reflexivity].
      try rewrite <- EC; try rewrite EC'. cbn [List.length keysOf map Nat.eqb andb].
      now rewrite app_nil_r.
    + apply nonEmpty_false in NC. rewrite NC in *. try rewrite <- EC.
      cbn [snd bind forEach keysOf map List.length Nat.eqb andb]. reflexivity.
Qed.

(** The functions that are not skipped are plain when the entries
    are. *)
Lemma plain_clean (this : plugin) (entries : list (string * obj)) :
  (forall entry, In entry entries ->
     skipsValidation this (snd entry) = false -> plainFunction (snd entry)) ->
  forall entry, In entry entries ->
    skipsValidation this (snd entry) = false -> cleanEvents (snd entry).
Proof. intros P entry I S. exact (proj2 (proj2 (P entry I S))). Qed.

(** When the default runtime prints, every function that is not
    skipped has a runtime and a handler that print, and the events of
    these functions and of every container are arrays that
    [validateTriggers] returns on, with rates that print,
    [validateApplications] returns its errors in this order: those it
    was given; the message on the default runtime, if there is a
    function and the table reads [undefined] at that runtime; for each
    function that is not skipped, in the order of the mapping, the
    message on its own runtime, the message on its handler and the
    messages on its events; the messages on the events of each
    container; the message that nothing is defined.  Where a runtime
    or a handler does not print, the engine throws as it builds the
    key of the table read or the message, and nothing is returned. *)
Theorem validateApplications_order (this : plugin) (errors : option (list string)) :
  wellFormed (svc this) ->
  printable (runtime this) = true ->
  (forall entry, In entry (entriesOf (functions (svc this))) ->
     skipsValidation this (snd entry) = false -> plainFunction (snd entry)) ->
  (forall entry, In entry (containersOf (svc this)) -> cleanEvents (snd entry)) ->
  snd (validateApplications this errors)
  = Ok (currentErrorsOf errors
          ++ defaultRuntimeErrors this
          ++ flat_map (functionErrorsOf this (readRuntime (toString (runtime this))))
               (entriesOf (functions (svc this)))
          ++ flat_map (fun entry => triggerErrorsOf (snd entry)) (containersOf (svc this))
          ++ emptyErrors (svc this))%list.
Proof.
  intros W _ PF CC. apply applications_report; [exact W | | exact CC].
  exact (plain_clean this _ PF).
Qed.

(** With the preconditions met, a default runtime that prints, plain
    functions where they are not skipped and clean events on the
    containers, the whole call leaves the service with its events
    defaulted and ends as the last step does on the namespace errors
    followed by the application errors. *)
Theorem validate_report (this : plugin) (namespaceErrors : list string) :
  wellFormed (svc this) ->
  truthy (servicePath this) = true ->
  validateCredentials this = Ok tt ->
  validateEnv (env (svc this)) = Ok namespaceErrors ->
  printable (runtime this) = true ->
  (forall entry, In entry (entriesOf (functions (svc this))) ->
     skipsValidation this (snd entry) = false -> plainFunction (snd entry)) ->
  (forall entry, In entry (containersOf (svc this)) -> cleanEvents (snd entry)) ->
  validate this
  = (normalizeService this (svc this),
     checkErrors
       (Some (namespaceErrors
                ++ defaultRuntimeErrors this
                ++ flat_map (functionErrorsOf this (readRuntime (toString (runtime this))))
                     (entriesOf (functions (svc this)))
                ++ flat_map (fun entry => triggerErrorsOf (snd entry))
                     (containersOf (svc this))
                ++ emptyErrors (svc this))%list)).
Proof.
  intros W S C N _ PF CC. unfold validate, validateServicePath, validateNamespace.
  rewrite S, C, N. simpl.
  pose proof (applications_report this (Some namespaceErrors) W
                (plain_clean this _ PF) CC) as R.
  destruct (validateApplications_service this (Some namespaceErrors) W) as [_ F].
  destruct (validateApplications this (Some namespaceErrors)) as [s r].
  simpl in R, F. subst r. now rewrite (F _ eq_refl).
Qed.

(** A service whose default runtime prints, whose functions are all
    skipped as golang and that has no container is reported on for its
    default runtime only: the handlers and events of its functions are
    not looked at, and the default runtime is checked although no
    function runs on it. *)
Theorem golang_only_report (this : plugin) (errors : option (list string)) :
  wellFormed (svc this) ->
  printable (runtime this) = true ->
  (forall entry, In entry (entriesOf (functions (svc this))) ->
     skipsValidation this (snd entry) = true) ->
  containersOf (svc this) = [] ->
  snd (validateApplications this errors)
  = Ok (currentErrorsOf errors ++ defaultRuntimeErrors this ++ emptyErrors (svc this))%list.
Proof.
  intros W _ G C. rewrite applications_report.
  - rewrite C. simpl.
    replace (flat_map _ (entriesOf (functions (svc this)))) with (@nil string);
      [reflexivity|].
    symmetry. induction (entriesOf (functions (svc this))) as [|entry rest IH];
      [reflexivity|].
    simpl. unfold functionErrorsOf at 1. rewrite (G entry (or_introl eq_refl)).
    apply IH. intros entry' I. apply G. now right.
  - exact W.
  - intros entry I S. rewrite (G entry I) in S. discriminate.
  - rewrite C. intros entry [].
Qed.

(** ** Throws in the applications phase *)

Lemma walk_throws (step : string -> obj -> list string -> obj * result (list string))
    (entry : string * obj) (entries : list (string * obj)) :
  In entry entries ->
  (forall errs, exists x, snd (step (fst entry) (snd entry) errs) = Throw x) ->
  forall errs, exists x, snd (walk step entries errs) = Throw x.
Proof.
  intros I T. induction entries as [|[n e] rest IH]; intros errs; [destruct I|].
  simpl. destruct (step n e errs) as [e' [errs'|x]] eqn:St.
  - destruct I as [<-|I].
    + destruct (T errs) as (x & Tx). simpl in Tx. rewrite St in Tx. discriminate.
    + destruct (IH I errs') as (x & Tx).
      destruct (walk step rest errs') as [rest' r']. simpl in *. eauto.
  - simpl. eauto.
Qed.

Lemma walk_typeErrors (step : string -> obj -> list string -> obj * result (list string)) :
  (forall n e errs x, snd (step n e errs) = Throw x -> exists site, x = TypeError site) ->
  forall entries errs x,
    snd (walk step entries errs) = Throw x -> exists site, x = TypeError site.
Proof.
  intros H. induction entries as [|[n e] rest IH]; intros errs x; simpl; [discriminate|].
  pose proof (H n e errs) as Hs.
  destruct (step n e errs) as [e' [errs'|y]]; simpl in *.
  - specialize (IH errs' x). destruct (walk step rest errs') as [rest' r']. exact IH.
  - intros [= <-]. now apply Hs.
Qed.

Lemma functionStep_typeErrors (this : plugin) (extensions : tableValue)
    (n : string) (e : obj) (errs : list string) (x : exn) :
  snd (functionStep this extensions n e errs) = Throw x -> exists site, x = TypeError site.
Proof.
  unfold functionStep. destruct (skipsValidation this e); simpl; [discriminate|].
  destruct (validateTriggers _) as [t|y] eqn:V; simpl; [discriminate|].
  intros [= <-]. exact (validateTriggers_throws _ V).
Qed.

Lemma containerStep_typeErrors (n : string) (e : obj) (errs : list string) (x : exn) :
  snd (containerStep n e errs) = Throw x -> exists site, x = TypeError site.
Proof.
  unfold containerStep. simpl.
  destruct (validateTriggers _) as [t|y] eqn:V; simpl; [discriminate|].
  intros [= <-]. exact (validateTriggers_throws _ V).
Qed.

(** Events that are truthy and no array: [reduce] is no function. *)
Lemma events_not_array (entity : obj) :
  truthy (get entity "events") = true ->
  (forall l, get entity "events" <> VArr l) ->
  exists x, validateTriggers (orEmpty (get entity "events")) = Throw x.
Proof.
  intros T A. unfold orEmpty. rewrite T.
  destruct (get entity "events"); simpl in *; try discriminate; eauto.
  now elim (A elems).
Qed.

(** An events property that is truthy and not an array (a mapping
    written where a list belongs) on a container, or on a function
    that is not skipped, ends the whole call with a [TypeError]: the
    errors collected so far are not reported. *)
Theorem malformed_events_abort (this : plugin) (name : string) (entity : obj)
    (namespaceErrors : list string) :
  wellFormed (svc this) ->
  truthy (servicePath this) = true ->
  validateCredentials this = Ok tt ->
  validateEnv (env (svc this)) = Ok namespaceErrors ->
  truthy (get entity "events") = true ->
  (forall l, get entity "events" <> VArr l) ->
  (In (name, entity) (entriesOf (functions (svc this)))
   /\ skipsValidation this entity = false)
  \/ In (name, entity) (containersOf (svc this)) ->
  exists site, snd (validate this) = Rejected (Fatal (TypeError site)).
Proof.
  intros W S C N T A I.
  assert (X : exists x, snd (validateApplications this (Some namespaceErrors)) = Throw x).
  { rewrite (applications_outcome this (Some namespaceErrors) W).
    destruct (events_not_array entity T A) as (x & V).
    destruct I as [[I K] | I].
    - destruct (walk_throws (functionStep this (readRuntime (toString (runtime this))))
                  (name, entity) _ I) with (errs := defaultRuntimeErrors this) as (y & Y).
      + intros errs. exists x. simpl. rewrite functionStep_checked by exact K.
        simpl. now rewrite V.
      + rewrite Y. simpl. eauto.
    - destruct (snd (walk (functionStep this _) _ _)) as [errs1|y]; simpl; [|eauto].
      destruct (walk_throws containerStep (name, entity) _ I) with (errs := errs1)
        as (y & Y).
      + intros errs. exists x. unfold containerStep. simpl.
        rewrite events_defaulted. now rewrite V.
      + rewrite Y. simpl. eauto. }
  destruct X as (x & X).
  assert (Ty : exists site, x = TypeError site).
  { rewrite (applications_outcome this (Some namespaceErrors) W) in X.
    destruct (snd (walk (functionStep this _) _ _)) as [errs1|y] eqn:W1; simpl in X.
    - destruct (snd (walk containerStep _ errs1)) as [errs2|y] eqn:W2; simpl in X;
        [discriminate|].
      injection X as <-.
      exact (walk_typeErrors containerStep containerStep_typeErrors _ _ W2).
    - injection X as <-.
      exact (walk_typeErrors _ (functionStep_typeErrors this _) _ _ W1). }
  destruct Ty as (site & ->). exists site.
  unfold validate, validateServicePath, validateNamespace. rewrite S, C, N. simpl.
  destruct (validateApplications this (Some namespaceErrors)) as [s r].
  simpl in X. now subst r.
Qed.

(** ** Validating twice *)

Lemma truthy_orEmpty (x : value) : truthy (orEmpty x) = true.
Proof. unfold orEmpty. destruct (truthy x) eqn:T; [exact T | reflexivity]. Qed.

Lemma orEmpty_truthy (x : value) : truthy x = true -> orEmpty x = x.
Proof. intros T. unfold orEmpty. now rewrite T. Qed.

Lemma defaultEvents_idem (entity : obj) :
  defaultEvents (defaultEvents entity) = defaultEvents entity.
Proof.
  unfold defaultEvents at 1. rewrite events_defaulted.
  rewrite (orEmpty_truthy _ (truthy_orEmpty _)).
  rewrite <- (events_defaulted entity) at 1.
  apply set_get_truthy. rewrite events_defaulted. apply truthy_orEmpty.
Qed.

Lemma skips_defaulted (this : plugin) (func : obj) :
  skipsValidation this (defaultEvents func) = skipsValidation this func.
Proof.
  unfold skipsValidation, defaultEvents. rewrite get_set_other; [reflexivity|discriminate].
Qed.

Lemma normalizeFunction_idem (this : plugin) (func : obj) :
  normalizeFunction this (normalizeFunction this func) = normalizeFunction this func.
Proof.
  unfold normalizeFunction. destruct (skipsValidation this func) eqn:S.
  - now rewrite S.
  - now rewrite skips_defaulted, S, defaultEvents_idem.
Qed.

Lemma functionStep_normalized (this : plugin) (extensions : tableValue)
    (n : string) (func : obj) (errs : list string) :
  snd (functionStep this extensions n (normalizeFunction this func) errs)
  = snd (functionStep this extensions n func errs).
Proof.
  unfold normalizeFunction. destruct (skipsValidation this func) eqn:S; [reflexivity|].
  rewrite !functionStep_checked by (now rewrite ?skips_defaulted). cbn [snd].
  rewrite events_defaulted, (orEmpty_truthy _ (truthy_orEmpty _)).
  unfold overrideErrors, handlerErrors, defaultEvents.
  rewrite !get_set_other by discriminate. reflexivity.
Qed.

Lemma containerStep_normalized (n : string) (container : obj) (errs : list string) :
  snd (containerStep n (defaultEvents container) errs)
  = snd (containerStep n container errs).
Proof. unfold containerStep. cbn [snd]. now rewrite defaultEvents_idem. Qed.

Lemma walk_map (step : string -> obj -> list string -> obj * result (list string))
    (f : obj -> obj) :
  (forall n e errs, snd (step n (f e) errs) = snd (step n e errs)) ->
  forall entries errs,
    snd (walk step (mapEntries f entries) errs) = snd (walk step entries errs).
Proof.
  intros H. induction entries as [|[n e] rest IH]; intros errs; [reflexivity|].
  simpl. specialize (H n e errs).
  destruct (step n (f e) errs) as [e1 r1]. destruct (step n e errs) as [e2 r2].
  simpl in H. subst r2. destruct r1 as [errs'|x]; [|reflexivity].
  specialize (IH errs').
  destruct (walk step (mapEntries f rest) errs') as [a ra].
  destruct (walk step rest errs') as [b rb]. exact IH.
Qed.

Lemma kept_fixed (f : obj -> obj) (old new : list (string * obj)) :
  Forall2 (entryKept f) old new ->
  Forall (fun entry => f (snd entry) = snd entry) old ->
  new = old.
Proof.
  induction 1 as [|[n e] [n' e'] old new [K1 K2] _ IH]; intros F; [reflexivity|].
  inversion F as [|? ? Fe Frest]; subst. simpl in *. subst n'.
  rewrite (IH Frest). destruct K2 as [->| ->]; [reflexivity | now rewrite Fe].
Qed.

Lemma mapEntries_fixed (f : obj -> obj) (entries : list (string * obj)) :
  (forall e, f (f e) = f e) ->
  Forall (fun entry => f (snd entry) = snd entry) (mapEntries f entries).
Proof.
  intros I. induction entries as [|[n e] rest IH]; constructor; [apply I | exact IH].
Qed.

Lemma keysOf_mapEntries (f : obj -> obj) (entries : list (string * obj)) :
  keysOf (mapEntries f entries) = keysOf entries.
Proof. unfold keysOf, mapEntries. rewrite map_map. reflexivity. Qed.

Lemma wellFormed_normalized (this : plugin) (s : service) :
  wellFormed s -> wellFormed (normalizeService this s).
Proof.
  intros [DF DC]. split; simpl.
  - unfold distinctNames in *. destruct (functions s); simpl in *;
      [now rewrite keysOf_mapEntries | exact DF].
  - destruct (customSection s) as [c|]; simpl; [|exact I].
    unfold distinctNames in *. destruct (containers c); simpl in *;
      [now rewrite keysOf_mapEntries | exact DC].
Qed.

(** The applications phase on a service that went through it: the
    service stays as it is and the outcome is the same. *)
Lemma applications_twice (this : plugin) (errors : option (list string)) :
  wellFormed (svc this) ->
  validateApplications (withService this (normalizeService this (svc this))) errors
  = (normalizeService this (svc this), snd (validateApplications this errors)).
Proof.
  intros W. set (this' := withService this (normalizeService this (svc this))).
  assert (W' : wellFormed (svc this')) by now apply wellFormed_normalized.
  apply injective_projections; cbn [fst snd].
  - destruct (validateApplications_service this' errors W') as [(Ke & Kf & Kc) _].
    change (normalizeFunction this') with (normalizeFunction this) in Kf.
    destruct (fst (validateApplications this' errors)) as [e' f' c']. simpl in *.
    unfold normalizeService. f_equal.
    + exact Ke.
    + destruct (functions (svc this)) as [fs|], f' as [fs'|]; simpl in *;
        try contradiction; [|reflexivity].
      f_equal. apply (kept_fixed Kf), mapEntries_fixed, normalizeFunction_idem.
    + destruct (customSection (svc this)) as [c|], c' as [[cs']|]; simpl in *;
        try contradiction; [|reflexivity].
      do 2 f_equal.
      destruct (containers c) as [cs|], cs' as [cs'|]; simpl in *;
        try contradiction; [|reflexivity].
      f_equal. apply (kept_fixed Kc), mapEntries_fixed, defaultEvents_idem.
  - rewrite (applications_outcome this' errors W'), (applications_outcome this errors W).
    assert (EF : entriesOf (functions (svc this'))
                 = mapEntries (normalizeFunction this) (entriesOf (functions (svc this))))
      by (simpl; now destruct (functions (svc this))).
    assert (EC : containersOf (svc this')
                 = mapEntries defaultEvents (containersOf (svc this))).
    { unfold containersOf. simpl. destruct (customSection (svc this)) as [c|];
        [|reflexivity]. simpl. now destruct (containers c). }
    assert (ED : defaultRuntimeErrors this' = defaultRuntimeErrors this).
    { unfold defaultRuntimeErrors. simpl.
      now destruct (functions (svc this)) as [[|entry rest]|]. }
    assert (EE : emptyErrors (svc this') = emptyErrors (svc this)).
    { unfold emptyErrors. rewrite EF, EC.
      destruct (entriesOf (functions (svc this))); [|reflexivity].
      now destruct (containersOf (svc this)). }
    rewrite EF, EC, ED, EE.
    change (runtime this') with (runtime this).
    change (functionStep this') with (functionStep this).
    rewrite (walk_map (functionStep this (readRuntime (toString (runtime this))))
               (normalizeFunction this)
               (functionStep_normalized this (readRuntime (toString (runtime this))))).
    destruct (snd (walk (functionStep this _) _ _)) as [errs1|x]; simpl; [|reflexivity].
    now rewrite (walk_map containerStep defaultEvents containerStep_normalized).
Qed.

(** Validating again a configuration that went through validation
    changes nothing and ends the same way. *)
Theorem validate_twice (this : plugin) (errors : list string) :
  wellFormed (svc this) ->
  snd (validate this) = Fulfilled tt \/ snd (validate this) = Rejected (Errors errors) ->
  validate (withService this (fst (validate this)))
  = (fst (validate this), snd (validate this)).
Proof.
  intros W. unfold validate, validateServicePath, validateNamespace. simpl.
  destruct (truthy (servicePath this)); simpl; [|intros [H|H]; discriminate].
  destruct (validateCredentials this) eqn:C; [|intros [H|H]; discriminate].
  assert (C' : forall s, validateCredentials (withService this s) = Ok a) by (intros s; exact C).
  destruct (validateEnv (env (svc this))) as [ns|x] eqn:N; simpl;
    [|intros [H|H]; discriminate].
  destruct (validateApplications_service this (Some ns) W) as [_ F].
  pose proof (applications_twice this (Some ns) W) as T.
  destruct (validateApplications this (Some ns)) as [s [all|x]];
    [|intros [H|H]; discriminate].
  intros _. simpl in *. rewrite (F all eq_refl) in *.
  rewrite C'. simpl. rewrite N. simpl. now rewrite T.
Qed.

(** ** Environment variables, further *)

Lemma to_uint_not_nil (n : nat) : Nat.to_uint n <> Decimal.Nil.
Proof.
  intros E. pose proof (Unsigned.of_to n) as O. rewrite E in O.
  destruct n; [discriminate E | discriminate O].
Qed.

(** Two numbers with the same numeral are the same. *)
Lemma decimal_inj (n m : nat) : decimal n = decimal m -> n = m.
Proof.
  unfold decimal. intros E. apply Unsigned.to_uint_inj.
  pose proof (NilZero.usu (Nat.to_uint n) (to_uint_not_nil n)) as Un.
  pose proof (NilZero.usu (Nat.to_uint m) (to_uint_not_nil m)) as Um.
  rewrite E in Un. congruence.
Qed.

Lemma find_index (i : nat) :
  forall n a, a <= i < a + n ->
    find (fun j => String.eqb (decimal j) (decimal i)) (seq a n) = Some i.
Proof.
  induction n as [|n IH]; intros a B; [lia|]. simpl.
  destruct (String.eqb_spec (decimal a) (decimal i)) as [E|N].
  - now rewrite (decimal_inj _ _ E).
  - apply IH. assert (a <> i) by (intros ->; now apply N). lia.
Qed.

Lemma atIndex_decimal (elems : list value) (i : nat) :
  i < List.length elems -> atIndex elems (decimal i) = nth i elems VUndefined.
Proof. intros B. unfold atIndex. rewrite find_index by lia. reflexivity. Qed.

Lemma indexed_reads (elems : list value) :
  forall pre l,
    elems = (pre ++ l)%list ->
    Forall (fun entry => getProp (VArr elems) (fst entry) = Ok (snd entry))
      (combine (map decimal (seq (List.length pre) (List.length l))) l).
Proof.
  intros pre l. revert pre. induction l as [|x l IH]; intros pre E; simpl; constructor.
  - simpl. rewrite atIndex_decimal.
    + subst elems. now rewrite app_nth2, Nat.sub_diag by lia.
    + subst elems. rewrite length_app. simpl. lia.
  - specialize (IH (pre ++ [x])%list). rewrite length_app in IH. simpl in IH.
    rewrite Nat.add_1_r in IH. apply IH. now rewrite <- app_assoc.
Qed.

Lemma reduce_env_reads (variables : value) (entries : obj) :
  Forall (fun entry => getProp variables (fst entry) = Ok (snd entry)) entries ->
  forall errors,
    reduce (envStep variables) (keysOf entries) errors
    = Ok (errors ++ map envMessage (keysOf (nonStringEntries entries)))%list.
Proof.
  induction 1 as [|[k v] rest Hk Hrest IH]; intros errors; simpl.
  - now rewrite app_nil_r.
  - unfold envStep at 1. simpl in Hk. rewrite Hk. simpl. rewrite typeof_string.
    destruct (isString v); simpl; rewrite IH.
    + reflexivity.
    + now rewrite <- app_assoc.
Qed.

Lemma keysOf_indexed (elems : list value) :
  keysOf (indexed elems) = indices (List.length elems).
Proof.
  unfold indexed, indices, keysOf. generalize 0.
  induction elems as [|x l IH]; intros a; simpl; [reflexivity|]. now rewrite IH.
Qed.

(** An array of environment variables is not refused: it is checked
    as the mapping from its indices to its elements, each element
    that is not a string reported under its index. *)
Theorem validateEnv_array (elems : list value) :
  validateEnv (VArr elems)
  = Ok (map envMessage (keysOf (nonStringEntries (indexed elems)))).
Proof.
  unfold validateEnv. simpl. rewrite <- keysOf_indexed.
  apply (reduce_env_reads (VArr elems) (indexed_reads [] elems eq_refl) []).
Qed.

Lemma reduce_env_returns (variables : value) :
  nullish variables = false ->
  forall names errors, exists r, reduce (envStep variables) names errors = Ok r.
Proof.
  intros N. induction names as [|k rest IH]; intros errors; simpl; [eauto|].
  unfold envStep at 1. destruct (getProp_defined variables k N) as (x & G).
  rewrite G. simpl. destruct (negb _); simpl; apply IH.
Qed.

Lemma validateEnv_throws (variables : value) (e : exn) :
  validateEnv variables = Throw e ->
  e = Error "Environment variables should be a map of strings under the form: key - value".
Proof.
  unfold validateEnv. destruct (truthy variables) eqn:T; simpl; [|discriminate].
  destruct (negb _); simpl; [now intros [= <-]|].
  assert (N : nullish variables = false) by (destruct variables; try discriminate; reflexivity).
  destruct (keys_defined variables N) as (keys & K). rewrite K. simpl.
  destruct (reduce_env_returns variables N keys []) as (r & R). rewrite R. discriminate.
Qed.

(** ** Fatal errors *)

(** When the call ends with a thrown [Error], the error is one of the
    three of the preconditions and the service is as it was: what the
    checks of functions and containers find is never thrown, and a
    throw of theirs is a [TypeError] of the engine. *)
Theorem fatal_error_is_precondition (this : plugin) (msg : string) :
  wellFormed (svc this) ->
  snd (validate this) = Rejected (Fatal (Error msg)) ->
  fst (validate this) = svc this
  /\ (msg = "This command can only be run inside a service directory"
      \/ msg = credentialsMessage
      \/ msg = "Environment variables should be a map of strings under the form: key - value").
Proof.
  intros W. unfold validate, validateServicePath, validateNamespace, validateCredentials.
  destruct (negb (truthy (servicePath this))); simpl.
  { intros [= <-]. auto. }
  destruct (_ || _); simpl.
  { intros [= <-]. auto. }
  destruct (validateEnv (env (svc this))) as [ns|x] eqn:N; simpl.
  - pose proof (applications_outcome this (Some ns) W) as O.
    destruct (validateApplications this (Some ns)) as [s [all|x]]; simpl in *.
    + destruct all; simpl; discriminate.
    + intros [= ->]. exfalso.
      destruct (snd (walk (functionStep this _) _ _)) as [errs1|y] eqn:W1; simpl in O.
      * destruct (snd (walk containerStep _ errs1)) as [errs2|y] eqn:W2; simpl in O;
          [discriminate|].
        injection O as O'; subst y.
        destruct (walk_typeErrors containerStep containerStep_typeErrors _ _ W2);
          discriminate.
      * injection O as O'; subst y.
        destruct (walk_typeErrors _ (functionStep_typeErrors this _) _ _ W1);
          discriminate.
  - intros [= ->]. apply validateEnv_throws in N. injection N as ->. auto.
Qed.

End Validate.

(* ================================================================= *)
(** * Instances *)

Ltac distinct :=
  repeat (constructor;
          [ simpl; intros H;
            repeat (destruct H as [H|H]; [discriminate H|]); exact H | ]);
  constructor.

(** ** The cron expression *)

Example cron_accepts_1 : test Cron.cronScheduleRegex "1 * * * *" = true.
Proof. reflexivity. Qed.

Example cron_accepts_2 : test Cron.cronScheduleRegex "*/5 0 1 1 0" = true.
Proof. reflexivity. Qed.

Example cron_accepts_step_0 : test Cron.cronScheduleRegex "*/0 * * * *" = true.
Proof. reflexivity. Qed.

Example cron_rejects_minute_60 : test Cron.cronScheduleRegex "60 * * * *" = false.
Proof. reflexivity. Qed.

Example cron_rejects_four_fields : test Cron.cronScheduleRegex "* * * *" = false.
Proof. reflexivity. Qed.

Example cron_rejects_hour_24 : test Cron.cronScheduleRegex "* 24 * * *" = false.
Proof. reflexivity. Qed.

Example cron_rejects_step_60 : test Cron.cronScheduleRegex "*/60 * * * *" = false.
Proof. reflexivity. Qed.

Example cron_rejects_leading_zero : test Cron.cronScheduleRegex "05 * * * *" = false.
Proof. reflexivity. Qed.

Example cron_rejects_two_spaces : test Cron.cronScheduleRegex "1  * * * *" = false.
Proof. reflexivity. Qed.

(** A payload without rate: the message echoes [undefined]. *)
Example schedule_missing_rate :
  schedule (VObj []) = Throw (Error (scheduleMessage VUndefined)).
Proof. reflexivity. Qed.

(** A payload that is [null] has no rate to echo: reading it throws. *)
Example schedule_null_payload :
  schedule VNull = Throw (TypeError (ReadOfNullish VNull "rate")).
Proof. reflexivity. Qed.

(** A rate that is a one-element array prints as its element. *)
Example schedule_array_rate :
  schedule (VObj [("rate", VArr [VStr "1 * * * *"])]) = Ok tt.
Proof. reflexivity. Qed.

(** C1 as stated fails on the payload [null]: validation fails, but
    there is no rate to read, and what is thrown is the [TypeError] of
    the read, whose message echoes no rate, not the schedule error. *)
Lemma schedule_null_counterexample :
  ~ hasCronRate VNull
  /\ (forall rate, getProp VNull "rate" <> Ok rate)
  /\ schedule VNull = Throw (TypeError (ReadOfNullish VNull "rate"))
  /\ (forall rate, schedule VNull <> Throw (Error (scheduleMessage rate)))
  /\ Sample.v8Message (ReadOfNullish VNull "rate")
     = "Cannot read properties of null (reading 'rate')".
Proof.
  split; [intros (rate & G & _); discriminate G|].
  split; [intros rate G; discriminate G|].
  split; [reflexivity|].
  split; [intros rate E; discriminate E | reflexivity].
Qed.

Lemma schedule_spec_witness :
  getProp (VObj [("rate", VStr "60 * * * *")]) "rate" = Ok (VStr "60 * * * *")
  /\ printable (VStr "60 * * * *") = true
  /\ ~ cronGrammar (toString (VStr "60 * * * *"))
  /\ schedule (VObj [("rate", VStr "60 * * * *")])
     = Throw (Error (scheduleMessage (VStr "60 * * * *")))
  /\ contains (scheduleMessage (VStr "60 * * * *")) (toString (VStr "60 * * * *"))
  /\ nullish VUndefined = true
  /\ schedule VUndefined = Throw (TypeError (ReadOfNullish VUndefined "rate")).
Proof.
  assert (N : ~ cronGrammar (toString (VStr "60 * * * *"))).
  { intros C. apply cron_regex_grammar in C. discriminate C. }
  split; [reflexivity|]. split; [reflexivity|]. split; [exact N|].
  destruct (proj2 (proj2 (proj2 (proj2
              (schedule_spec (VObj [("rate", VStr "60 * * * *")])))))
              (VStr "60 * * * *") eq_refl eq_refl N) as [S C].
  split; [exact S|]. split; [exact C|]. split; [reflexivity|].
  exact (proj1 (proj2 (proj2 (schedule_spec VUndefined))) eq_refl).
Defined.

(** ** Triggers *)

Example http_trigger :
  validateTriggers Sample.v8Message (VArr [VObj [("http", VObj [])]])
  = Ok ["Trigger Type http is not currently supported by Scaleway's Serverless platform, supported types are the following: schedule"].
Proof. reflexivity. Qed.



(** ** Environment variables *)

Example env_count :
  validateEnv (VObj [("KEY", VStr "value"); ("COUNT", VNum 5)])
  = Ok ["Variable COUNT: variable is invalid, environment variables may only be strings"].
Proof. reflexivity. Qed.

(** An array passes for a mapping from its indices. *)
Example env_array :
  validateEnv (VArr [VStr "a"; VNum 1])
  = Ok ["Variable 1: variable is invalid, environment variables may only be strings"].
Proof. reflexivity. Qed.

(** C7 as stated fails: [false] is not a mapping, and [validateEnv]
    does not throw on it. *)
Lemma validateEnv_falsy_counterexample :
  typeof (VBool false) <> "object"
  /\ validateEnv (VBool false) = Ok []
  /\ ~ exists e, validateEnv (VBool false) = Throw e.
Proof.
  split; [discriminate|]. split; [reflexivity|].
  intros (e & E). discriminate E.
Qed.

Lemma validateEnv_spec_witness :
  NoDup (keysOf [("KEY", VStr "value"); ("COUNT", VNum 5); ("DEBUG", VBool true)])
  /\ validateEnv (VObj [("KEY", VStr "value"); ("COUNT", VNum 5); ("DEBUG", VBool true)])
     = Ok (map envMessage ["COUNT"; "DEBUG"])
  /\ validateEnv (VStr "KEY=value")
     = Throw (Error "Environment variables should be a map of strings under the form: key - value")
  /\ validateEnv VNull = Ok [].
Proof.
  assert (D : NoDup (keysOf [("KEY", VStr "value"); ("COUNT", VNum 5); ("DEBUG", VBool true)]))
    by distinct.
  split; [exact D|]. split; [|split].
  - exact (proj2 (proj2 validateEnv_spec) _ D).
  - apply (proj1 (proj2 validateEnv_spec)); [reflexivity | discriminate].
  - apply (proj1 validateEnv_spec). reflexivity.
Defined.

(** ** Credentials *)

Lemma credentials_and_final_step_witness :
  truthy (servicePath Sample.shortToken) = true
  /\ (String.length (scwToken Sample.shortToken) <> 36
      \/ String.length (scwProject Sample.shortToken) <> 36)
  /\ validate Sample.v8Message Sample.existsSync Sample.resolve Sample.shortToken
     = (svc Sample.shortToken, Rejected (Fatal (Error credentialsMessage))).
Proof.
  assert (L : String.length (scwToken Sample.shortToken) <> 36
              \/ String.length (scwProject Sample.shortToken) <> 36)
    by (left; discriminate).
  split; [reflexivity|]. split; [exact L|].
  exact (proj1 (proj2 (proj2
           (@credentials_and_final_step Sample.v8Message Sample.existsSync Sample.resolve
              Sample.shortToken))) eq_refl L).
Defined.

Example credentials_length_only :
  validateCredentials Sample.shortToken = Throw (Error credentialsMessage)
  /\ validateCredentials
       {| servicePath := VStr "/srv"; scwToken := Sample.token ++ "0";
          scwProject := Sample.token; runtime := VStr "node14";
          svc := svc Sample.goOnly |}
     = Throw (Error credentialsMessage)
  /\ validateCredentials Sample.goOnly = Ok tt.
Proof. repeat split. Qed.

(** ** Functions and containers *)

Lemma validateApplications_empty_witness :
  entriesOf (functions (svc (Sample.pluginWith (VStr "cobol") (Some []) None))) = []
  /\ validateApplications Sample.v8Message Sample.existsSync Sample.resolve
       (Sample.pluginWith (VStr "cobol") (Some []) None) None
     = (svc (Sample.pluginWith (VStr "cobol") (Some []) None), Ok [emptyMessage]).
Proof.
  split; [reflexivity|].
  exact (@validateApplications_empty Sample.v8Message Sample.existsSync Sample.resolve
           (Sample.pluginWith (VStr "cobol") (Some []) None) None eq_refl I).
Defined.

Lemma golang_skips_checks_witness :
  isGolang (get Sample.gopher "runtime") = true
  /\ functionStep Sample.v8Message Sample.existsSync Sample.resolve Sample.goOnly
       (readRuntime "node14") "gopher" Sample.gopher []
     = (Sample.gopher, Ok []).
Proof.
  split; [reflexivity|].
  exact (@golang_skips_checks Sample.v8Message Sample.existsSync Sample.resolve
           Sample.goOnly (readRuntime "node14") "gopher" Sample.gopher []
           (or_introl eq_refl)).
Defined.

(** A golang function with a handler of three segments, alone in the
    service: validation succeeds. *)
Example golang_malformed_handler :
  snd (validate Sample.v8Message Sample.existsSync Sample.resolve Sample.goOnly)
  = Fulfilled tt.
Proof. reflexivity. Qed.

Lemma unsupported_override_witness :
  truthy (get Sample.ruby "runtime") = true
  /\ readRuntime (toString (get Sample.ruby "runtime")) = Absent
  /\ overrideErrors Sample.goOnly Sample.ruby
     = ["Runtime node14 is not supported. Function runtime must be one of the following: node8, node10, node14, python, python3, golang"].
Proof.
  split; [reflexivity|]. split; [reflexivity|].
  exact (proj1 (@unsupported_override Sample.v8Message Sample.existsSync Sample.resolve
                  Sample.goOnly (readRuntime "node14") "ruby" Sample.ruby []
                  eq_refl eq_refl)).
Defined.

(** C5, at the failing input.  A function that declares the runtime
    [constructor], which is no key of the table and not golang: the
    table read finds the member inherited from [Object.prototype], no
    unsupported-runtime message is pushed, and with the handler file
    in place the whole validation succeeds. *)
Example override_constructor :
  lookup RUNTIMES_EXTENSIONS "constructor" = None
  /\ skipsValidation Sample.inheritedOverride Sample.builder = false
  /\ overrideErrors Sample.inheritedOverride Sample.builder = []
  /\ snd (validate Sample.v8Message Sample.existsSync Sample.resolve
            Sample.inheritedOverride)
     = Fulfilled tt.
Proof. repeat split. Qed.


Example handler_found :
  handlerErrors Sample.existsSync Sample.resolve (readRuntime "node14") "web" Sample.web = [].
Proof. reflexivity. Qed.

Example handler_three_segments :
  handlerErrors (fun _ => true) Sample.resolve (readRuntime "node14") "web"
    [("handler", VStr "path.to.file.handler")]
  = ["Handler file defined for function web does not exist (path.to.file.handler)."].
Proof. reflexivity. Qed.

(** A function without handler: the read of [split] throws, the
    message prints [undefined]. *)
Example handler_missing :
  handlerErrors (fun _ => true) Sample.resolve (readRuntime "node14") "web" []
  = ["Handler file defined for function web does not exist (undefined)."].
Proof. reflexivity. Qed.

Lemma handler_probe_uses_default_runtime_witness :
  skipsValidation Sample.goOnly Sample.job = false
  /\ lookup RUNTIMES_EXTENSIONS (toString (runtime Sample.goOnly)) = Some ["ts"; "js"]
  /\ (handlerErrors Sample.existsSync Sample.resolve
        (readRuntime (toString (runtime Sample.goOnly))) "job" Sample.job = []
      <-> exists ext,
            In ext ["ts"; "js"]
            /\ Sample.existsSync (Sample.resolve ("job" ++ "." ++ ext)) = true).
Proof.
  split; [reflexivity|]. split; [reflexivity|].
  exact (proj1 (proj2
           (@handler_probe_uses_default_runtime Sample.v8Message Sample.existsSync
              Sample.resolve Sample.goOnly "job" Sample.job [] eq_refl))
           ["ts"; "js"] "job.run" "job" "run" eq_refl eq_refl eq_refl).
Defined.

(** A python function under the default runtime node14: [job.py] is
    there, and the handler is reported missing all the same. *)
Example python_override_probed_as_node :
  Sample.existsSync (Sample.resolve "job.py") = true
  /\ handlerErrors Sample.existsSync Sample.resolve
       (readRuntime (toString (runtime Sample.goOnly))) "job" Sample.job
     = ["Handler file defined for function job does not exist (job.run)."].
Proof. split; reflexivity. Qed.

(** C10, at the failing input.  The default runtime [constructor] is
    no key of the table; the table read finds the member inherited
    from [Object.prototype], a function of length one without indexed
    property, so the loop probes the candidate with extension
    [undefined].  Where that file exists the handler check of a
    function that is not golang passes and the validation succeeds;
    where it does not, the handler message is pushed. *)
Example inherited_default_runtime :
  lookup RUNTIMES_EXTENSIONS (toString (runtime Sample.inheritedDefault)) = None
  /\ skipsValidation Sample.inheritedDefault Sample.web = false
  /\ handlerErrors Sample.existsSync' Sample.resolve
       (readRuntime (toString (runtime Sample.inheritedDefault))) "web" Sample.web
     = []
  /\ snd (validate Sample.v8Message Sample.existsSync' Sample.resolve
            Sample.inheritedDefault)
     = Fulfilled tt
  /\ handlerErrors Sample.existsSync Sample.resolve
       (readRuntime (toString (runtime Sample.inheritedDefault))) "web" Sample.web
     = ["Handler file defined for function web does not exist (src/h.main)."].
Proof. repeat split. Qed.

(** ** What validation changes *)

(** C9 as stated fails: the validation of a service with one golang
    function succeeds and leaves the function without [events]. *)
Lemma golang_events_counterexample :
  snd (validate Sample.v8Message Sample.existsSync Sample.resolve Sample.goOnly)
  = Fulfilled tt
  /\ exists func,
       lookup
         (entriesOf
            (functions
               (fst (validate Sample.v8Message Sample.existsSync Sample.resolve
                       Sample.goOnly))))
         "gopher" = Some func
       /\ get func "events" = VUndefined.
Proof.
  split; [reflexivity|]. exists Sample.gopher. split; reflexivity.
Qed.

Lemma validation_defaults_events_only_witness :
  wellFormed (svc Sample.mixed)
  /\ fst (validate Sample.v8Message Sample.existsSync Sample.resolve Sample.mixed)
     = normalizeService Sample.mixed (svc Sample.mixed)
  /\ functions (normalizeService Sample.mixed (svc Sample.mixed))
     = Some [ ("web", [("handler", VStr "src/h.main"); ("events", VArr [])]);
              ("gopher", Sample.gopher) ].
Proof.
  assert (W : wellFormed (svc Sample.mixed)).
  { split; [distinct | exact I]. }
  split; [exact W|]. split; [|reflexivity].
  exact (proj1 (proj2
           (@validation_defaults_events_only Sample.v8Message Sample.existsSync
              Sample.resolve Sample.mixed W))
           [] (or_introl eq_refl)).
Defined.

(** ** Further instances *)

Lemma handler_format_witness :
  occurrences "." "src/h.main" = 1
  /\ exists filePath symbol,
       split "." "src/h.main" = [filePath; symbol]
       /\ "src/h.main" = filePath ++ "." ++ symbol
       /\ occurrences "." filePath = 0
       /\ occurrences "." symbol = 0.
Proof.
  split; [reflexivity|].
  exact (proj2 (@handler_format Sample.existsSync Sample.resolve
                  (readRuntime "node14") "web" "src/h.main") eq_refl).
Defined.

Lemma accepted_rate_shape_witness :
  getProp (VObj [("rate", VStr "*/5 0 1 1 0")]) "rate" = Ok (VStr "*/5 0 1 1 0")
  /\ schedule (VObj [("rate", VStr "*/5 0 1 1 0")]) = Ok tt
  /\ 9 <= String.length "*/5 0 1 1 0" <= 23
  /\ allChars cronChar "*/5 0 1 1 0" = true
  /\ occurrences " " "*/5 0 1 1 0" = 4.
Proof.
  split; [reflexivity|]. split; [reflexivity|].
  exact (@accepted_rate_shape (VObj [("rate", VStr "*/5 0 1 1 0")]) (VStr "*/5 0 1 1 0")
           eq_refl eq_refl).
Defined.

Lemma accepted_rate_kind_witness :
  schedule (VObj [("rate", VArr [VStr "1 * * * *"])]) = Ok tt
  /\ ((exists s, VArr [VStr "1 * * * *"] = VStr s)
      \/ (exists elems, VArr [VStr "1 * * * *"] = VArr elems)).
Proof.
  split; [reflexivity|].
  exact (@accepted_rate_kind (VObj [("rate", VArr [VStr "1 * * * *"])])
           (VArr [VStr "1 * * * *"]) eq_refl eq_refl).
Defined.

Lemma validateTriggers_accepts_witness :
  Forall (fun t => nullish t = false) [Sample.everyMinute; Sample.everyMinute]
  /\ (validateTriggers Sample.v8Message (VArr [Sample.everyMinute; Sample.everyMinute]) = Ok []
      <-> Forall validSchedule [Sample.everyMinute; Sample.everyMinute]).
Proof.
  assert (N : Forall (fun t => nullish t = false) [Sample.everyMinute; Sample.everyMinute])
    by (repeat constructor).
  split; [exact N|].
  exact (@validateTriggers_accepts Sample.v8Message _ N).
Defined.

Lemma validateTriggers_count_witness :
  Forall (fun t => nullish t = false) Sample.triggers
  /\ exists errs,
       validateTriggers Sample.v8Message (VArr Sample.triggers) = Ok errs
       /\ List.length errs <= List.length Sample.triggers.
Proof.
  assert (N : Forall (fun t => nullish t = false) Sample.triggers)
    by (repeat constructor).
  split; [exact N|].
  exact (@validateTriggers_count Sample.v8Message _ N).
Defined.

Ltac clean :=
  intros entry I; repeat (destruct I as [<-|I]); try destruct I;
  try (intros S; discriminate S); intros;
  try (split; [reflexivity | split; [reflexivity|]]);
  eexists; (split; [reflexivity | repeat constructor]).

Lemma full_wellFormed : wellFormed (svc Sample.full).
Proof. split; distinct. Defined.

Lemma full_functions_plain :
  forall entry, In entry (entriesOf (functions (svc Sample.full))) ->
    skipsValidation Sample.full (snd entry) = false -> plainFunction (snd entry).
Proof. clean. Defined.

Lemma full_containers_clean :
  forall entry, In entry (containersOf (svc Sample.full)) -> cleanEvents (snd entry).
Proof. clean. Defined.

Lemma validateApplications_order_witness :
  wellFormed (svc Sample.full)
  /\ printable (runtime Sample.full) = true
  /\ (forall entry, In entry (entriesOf (functions (svc Sample.full))) ->
        skipsValidation Sample.full (snd entry) = false -> plainFunction (snd entry))
  /\ (forall entry, In entry (containersOf (svc Sample.full)) ->
        cleanEvents (snd entry))
  /\ snd (validateApplications Sample.v8Message Sample.existsSync Sample.resolve
            Sample.full (Some ["before"]))
     = Ok [ "before";
            "Trigger Type http is not currently supported by Scaleway's Serverless platform, supported types are the following: schedule";
            "Handler file defined for function job does not exist (job.run).";
            "Trigger Type http is not currently supported by Scaleway's Serverless platform, supported types are the following: schedule";
            "Trigger is invalid, it should contain at least one event type configuration (example: schedule).";
            "Trigger Schedule is invalid: 60 * * * *, schedule should be formatted like a UNIX-Compliant Cronjob, for example: '1 * * * *'" ].
Proof.
  split; [exact full_wellFormed|]. split; [reflexivity|].
  split; [exact full_functions_plain|]. split; [exact full_containers_clean|].
  exact (eq_trans
           (@validateApplications_order Sample.v8Message Sample.existsSync Sample.resolve
              Sample.full (Some ["before"]) full_wellFormed eq_refl
              full_functions_plain
              full_containers_clean)
           eq_refl).
Defined.

Lemma validate_report_witness :
  wellFormed (svc Sample.full)
  /\ validateEnv (env (svc Sample.full)) = Ok []
  /\ printable (runtime Sample.full) = true
  /\ (forall entry, In entry (entriesOf (functions (svc Sample.full))) ->
        skipsValidation Sample.full (snd entry) = false -> plainFunction (snd entry))
  /\ (forall entry, In entry (containersOf (svc Sample.full)) ->
        cleanEvents (snd entry))
  /\ validate Sample.v8Message Sample.existsSync Sample.resolve Sample.full
     = (normalizeService Sample.full (svc Sample.full),
        Rejected
          (Errors
             [ "Trigger Type http is not currently supported by Scaleway's Serverless platform, supported types are the following: schedule";
               "Handler file defined for function job does not exist (job.run).";
               "Trigger Type http is not currently supported by Scaleway's Serverless platform, supported types are the following: schedule";
               "Trigger is invalid, it should contain at least one event type configuration (example: schedule).";
               "Trigger Schedule is invalid: 60 * * * *, schedule should be formatted like a UNIX-Compliant Cronjob, for example: '1 * * * *'" ])).
Proof.
  split; [exact full_wellFormed|]. split; [reflexivity|]. split; [reflexivity|].
  split; [exact full_functions_plain|]. split; [exact full_containers_clean|].
  exact (eq_trans
           (@validate_report Sample.v8Message Sample.existsSync Sample.resolve
              Sample.full [] full_wellFormed eq_refl eq_refl eq_refl eq_refl
              full_functions_plain
              full_containers_clean)
           eq_refl).
Defined.

Lemma golang_only_report_witness :
  wellFormed (svc Sample.goUnderCobol)
  /\ printable (runtime Sample.goUnderCobol) = true
  /\ (forall entry, In entry (entriesOf (functions (svc Sample.goUnderCobol))) ->
        skipsValidation Sample.goUnderCobol (snd entry) = true)
  /\ containersOf (svc Sample.goUnderCobol) = []
  /\ snd (validateApplications Sample.v8Message Sample.existsSync Sample.resolve
            Sample.goUnderCobol None)
     = Ok ["Runtime cobol is not supported. Function runtime must be one of the following: node8, node10, node14, python, python3, golang"].
Proof.
  assert (W : wellFormed (svc Sample.goUnderCobol)) by (split; [distinct | exact I]).
  assert (G : forall entry, In entry (entriesOf (functions (svc Sample.goUnderCobol))) ->
                skipsValidation Sample.goUnderCobol (snd entry) = true).
  { intros entry [<-|[]]. reflexivity. }
  split; [exact W|]. split; [reflexivity|]. split; [exact G|].
  split; [reflexivity|].
  exact (eq_trans
           (@golang_only_report Sample.v8Message Sample.existsSync Sample.resolve
              Sample.goUnderCobol None W eq_refl G eq_refl)
           eq_refl).
Defined.

Lemma malformed_events_abort_witness :
  wellFormed (svc Sample.broken)
  /\ truthy (get Sample.mappingEvents "events") = true
  /\ (forall l, get Sample.mappingEvents "events" <> VArr l)
  /\ exists site,
       snd (validate Sample.v8Message Sample.existsSync Sample.resolve Sample.broken)
       = Rejected (Fatal (TypeError site)).
Proof.
  assert (W : wellFormed (svc Sample.broken)) by (split; [distinct | exact I]).
  assert (A : forall l, get Sample.mappingEvents "events" <> VArr l)
    by (intros l E; discriminate E).
  split; [exact W|]. split; [reflexivity|]. split; [exact A|].
  exact (@malformed_events_abort Sample.v8Message Sample.existsSync Sample.resolve
           Sample.broken "web" Sample.mappingEvents [] W eq_refl eq_refl eq_refl
           eq_refl A (or_introl (conj (or_introl eq_refl) eq_refl))).
Defined.

Lemma validate_twice_witness :
  wellFormed (svc Sample.mixed)
  /\ snd (validate Sample.v8Message Sample.existsSync Sample.resolve Sample.mixed)
     = Fulfilled tt
  /\ validate Sample.v8Message Sample.existsSync Sample.resolve
       (withService Sample.mixed
          (fst (validate Sample.v8Message Sample.existsSync Sample.resolve Sample.mixed)))
     = (fst (validate Sample.v8Message Sample.existsSync Sample.resolve Sample.mixed),
        Fulfilled tt).
Proof.
  assert (W : wellFormed (svc Sample.mixed)) by (split; [distinct | exact I]).
  split; [exact W|]. split; [reflexivity|].
  exact (@validate_twice Sample.v8Message Sample.existsSync Sample.resolve
           Sample.mixed [] W (or_introl eq_refl)).
Defined.

Lemma fatal_error_is_precondition_witness :
  wellFormed (svc Sample.shortToken)
  /\ snd (validate Sample.v8Message Sample.existsSync Sample.resolve Sample.shortToken)
     = Rejected (Fatal (Error credentialsMessage))
  /\ fst (validate Sample.v8Message Sample.existsSync Sample.resolve Sample.shortToken)
     = svc Sample.shortToken.
Proof.
  assert (W : wellFormed (svc Sample.shortToken)) by (split; [distinct | exact I]).
  split; [exact W|]. split; [reflexivity|].
  exact (proj1 (@fatal_error_is_precondition Sample.v8Message Sample.existsSync
                  Sample.resolve Sample.shortToken credentialsMessage W eq_refl)).
Defined.

(** An array of strings passes as environment. *)
Example env_array_of_strings :
  validateEnv (VArr [VStr "KEY=value"; VStr "DEBUG=1"]) = Ok [].
Proof. reflexivity. Qed.
